(** * A shallow embedding of the static file server of [file-server/server.go]

    The development follows the source file top to bottom.  Go strings are
    byte sequences and are modelled by [string]; Go's [int] indices are
    modelled by [Z] (with [-1] for "not found"), the hash cache
    [map[string]string] by a [gmap string string], and the effects of the
    server (the cache and the calls that leave the package: opening files,
    globbing, hashing) by explicit state passing over a [State] that also
    records a trace of those calls. *)

From Stdlib Require Import ZArith Ascii String.
From stdpp Require Import base option list strings gmap.

Local Open Scope Z_scope.

(** ** The part of Go's standard library that the server uses *)

Module GoStrings.

(** [s[:i]] and [s[i:]] for an in-range index [i]. *)
Fixpoint take (n : nat) (s : string) : string :=
  match n, s with
  | S n', String a r => String a (take n' r)
  | _, _ => ""
  end.

Fixpoint drop (n : nat) (s : string) : string :=
  match n, s with
  | S n', String _ r => drop n' r
  | _, _ => s
  end.

Definition len (s : string) : Z := Z.of_nat (String.length s).

(** [strings.LastIndexByte]: index of the last occurrence of [c], or [-1]. *)
Fixpoint LastIndexByte (s : string) (c : ascii) : Z :=
  match s with
  | "" => -1
  | String a r =>
      let i := LastIndexByte r c in
      if 0 <=? i then i + 1
      else if decide (a = c) then 0 else -1
  end.

(** [strings.Split(s, sep)] for a one-byte separator: never empty. *)
Fixpoint Split (s : string) (c : ascii) : list string :=
  match s with
  | "" => [""]
  | String a r =>
      if decide (a = c) then "" :: Split r c
      else match Split r c with
           | x :: xs => String a x :: xs
           | [] => [String a ""]
           end
  end.

Fixpoint HasPrefix (s prefix : string) : bool :=
  match prefix, s with
  | "", _ => true
  | String b prefix', String a s' =>
      if decide (a = b) then HasPrefix s' prefix' else false
  | String _ _, "" => false
  end.

Definition TrimPrefix (s prefix : string) : string :=
  if HasPrefix s prefix then drop (String.length prefix) s else s.

Definition HasSuffix (s suffix : string) : bool :=
  let n := String.length s in
  let m := String.length suffix in
  if decide (m ≤ n)%nat
  then bool_decide (drop (n - m) s = suffix)
  else false.

Definition TrimSuffix (s suffix : string) : string :=
  if HasSuffix s suffix
  then take (String.length s - String.length suffix) s
  else s.

(** [strings.TrimLeft(s, cutset)] for a one-byte cutset. *)
Fixpoint TrimLeft (s : string) (c : ascii) : string :=
  match s with
  | String a r => if decide (a = c) then TrimLeft r c else s
  | "" => ""
  end.

(** [strings.IndexByte(s, c) >= 0]: the byte [c] occurs in [s]. *)
Fixpoint Contains (s : string) (c : ascii) : bool :=
  match s with
  | "" => false
  | String a r => if decide (a = c) then true else Contains r c
  end.

(** [strings.TrimRight(s, cutset)] for a one-byte cutset. *)
Fixpoint TrimRight (s : string) (c : ascii) : string :=
  match s with
  | "" => ""
  | String a r =>
      let r' := TrimRight r c in
      if decide (r' = "") then (if decide (a = c) then "" else String a "")
      else String a r'
  end.

(** Last byte of a string, [s[len(s)-1]]; [None] stands for the
    index-out-of-range panic on the empty string. *)
Fixpoint last_byte (s : string) : option ascii :=
  match s with
  | "" => None
  | String a "" => Some a
  | String _ r => last_byte r
  end.

(** [strings.Join(parts, sep)]. *)
Fixpoint Join (parts : list string) (sep : string) : string :=
  match parts with
  | [] => ""
  | [x] => x
  | x :: rest => x +:+ sep +:+ Join rest sep
  end.

End GoStrings.

Module GoPath.
Import GoStrings.

(** [path.Split]: the directory part keeps its final slash. *)
Definition Split (p : string) : string * string :=
  let i := LastIndexByte p "/" in
  (take (Z.to_nat (i + 1)) p, drop (Z.to_nat (i + 1)) p).

(** The element stack of [path.Clean]: [rooted] tells whether the path
    starts with a slash, [out] is the stack of kept elements, last one
    first. *)
Fixpoint clean_elems (rooted : bool) (elems out : list string) : list string :=
  match elems with
  | [] => out
  | e :: rest =>
      if decide (e = "") then clean_elems rooted rest out
      else if decide (e = ".") then clean_elems rooted rest out
      else if decide (e = "..") then
        match out with
        | top :: out' =>
            if decide (top = "..") then clean_elems rooted rest (e :: out)
            else clean_elems rooted rest out'
        | [] =>
            if rooted then clean_elems rooted rest []
            else clean_elems rooted rest [e]
        end
      else clean_elems rooted rest (e :: out)
  end.

(** [path.Clean]: the shortest equivalent path. *)
Definition Clean (p : string) : string :=
  if decide (p = "") then "."
  else
    let rooted := HasPrefix p "/" in
    let body := Join (rev (clean_elems rooted (GoStrings.Split p "/") [])) "/" in
    let r := (if rooted then "/" else "") +:+ body in
    if decide (r = "") then "." else r.

(** [path.Join] of two elements: empty elements are ignored and the
    result is cleaned; all elements empty gives the empty string. *)
Definition Join (a b : string) : string :=
  if decide (a = "") then
    if decide (b = "") then "" else Clean b
  else if decide (b = "") then Clean a
  else Clean (a +:+ "/" +:+ b).

(** [path.Base]: the last element, trailing slashes removed first. *)
Definition Base (p : string) : string :=
  if decide (p = "") then "."
  else
    let p := TrimRight p "/" in
    let p := snd (Split p) in
    if decide (p = "") then "/" else p.

(** [filepath.Ext]: the suffix from the final dot of the final element. *)
Definition Ext (p : string) : string :=
  let f := snd (Split p) in
  let i := LastIndexByte f "." in
  if 0 <=? i then drop (Z.to_nat i) f else "".

End GoPath.

Import GoStrings.

(** ** Errors, files and the collaborators of the server *)

(** Go [error] values that reach the server.  [errNotFound] and
    [errNotRegularFile] are the two package-level sentinels that
    [server.go] compares against with [==]; the other constructors stand for
    errors made outside the package (by the filesystem, the globber or the
    Hasher), classified as [os.IsNotExist] and [os.IsPermission] do.
    A nil error is [None : option error]. *)
Inductive error : Type :=
  | errNotFound
  | errNotRegularFile
  | ErrNotExist
  | ErrPermission
  | ErrOther (detail : string).

Global Instance error_eq_dec : EqDecision error.
Proof. solve_decision. Defined.

Definition os_IsNotExist (err : option error) : bool :=
  match err with Some ErrNotExist => true | _ => false end.

Definition os_IsPermission (err : option error) : bool :=
  match err with Some ErrPermission => true | _ => false end.

(** [os.FileMode]: only what [IsDir] and [IsRegular] look at. *)
Inductive FileMode : Type := ModeRegular | ModeDir | ModeIrregular.

Definition IsRegular (m : FileMode) : bool :=
  match m with ModeRegular => true | _ => false end.

Record FileInfo : Type := {
  Name : string;
  ModTime : Z;
  Mode : FileMode
}.

Definition IsDir (d : FileInfo) : bool :=
  match Mode d with ModeDir => true | _ => false end.

(** An opened [http.File]: the path it was opened at, its bytes, and what
    [Stat] returns for it. *)
Record File : Type := {
  file_path : string;
  file_content : string;
  Stat : FileInfo + error
}.

(** The [Hasher] interface: [Hash] returns a digest and an error,
    [IsHash] recognises digests. *)
Record Hasher : Type := {
  Hash : File → string * option error;
  IsHash : string → bool
}.

(** An [http.Handler] is identified by a name. *)
Definition Handler : Type := string.

(** The fields of [Options] that [server.go] reads.  A nil interface or nil
    slice is [None]. *)
Record Options : Type := {
  opt_Hasher : option Hasher;
  NoHashQueryStrings : bool;
  RedirectTrailingSlash : bool;
  IndexPage : string;
  AltDir : string;
  Filenames : option (list string);
  NotFoundHandler : option Handler;
  ForbiddenHandler : option Handler;
  InternalServerErrorHandler : option Handler
}.

(** [Server] without its mutable part: the [hashes] map lives in [State]
    and the lock [mu] has no sequential content. *)
Record Server : Type := {
  options : Options;
  root : string;
  dir : string
}.

(** [Options{}], what [New] uses for nil options. *)
Definition Options_zero : Options :=
  {| opt_Hasher := None; NoHashQueryStrings := false;
     RedirectTrailingSlash := false; IndexPage := "";
     AltDir := ""; Filenames := None;
     NotFoundHandler := None; ForbiddenHandler := None;
     InternalServerErrorHandler := None |}.

(** [func New(root, dir string, options *Options) *Server]; the empty
    [hashes] map it allocates is the initial [State]. *)
Definition New (root dir : string) (opts : option Options) : Server :=
  {| options := default Options_zero opts; root := root; dir := dir |}.

(** What lives outside the package.  [fs_open dir name] is the package-level
    function [open(dir, name, s.Filesystem)], which is not part of
    [server.go] and is taken as given; [fs_glob] is [filepath.Glob]. *)
Record World : Type := {
  fs_open : string → string → File + error;
  fs_glob : string → list string * option error
}.

(** Calls that leave the package, in the order they are made. *)
Inductive Event : Type :=
  | EvOpen (dir name : string)
  | EvGlob (pattern : string)
  | EvHash (f : File).

Record State : Type := {
  hashes : gmap string string;
  trace : list Event
}.

(** ** A state monad for the methods of [Server] *)

Definition M (A : Type) : Type := State → A * State.

Global Instance M_ret : MRet M := λ A (a : A) st, (a, st).
Global Instance M_bind : MBind M := λ A B (k : A → M B) (m : M A) st,
  let (a, st') := m st in k a st'.

(** [st] after the calls [evs] have been made. *)
Definition log (st : State) (evs : list Event) : State :=
  {| hashes := hashes st; trace := trace st ++ evs |}.

(** [st] after [s.hashes[p] = h]. *)
Definition stored (p h : string) (st : State) : State :=
  {| hashes := <[p := h]> (hashes st); trace := trace st |}.

Definition emit (e : Event) : M unit := λ st, (tt, log st [e]).

(** [h, ok := s.hashes[p]] *)
Definition cache_load (p : string) : M (option string) :=
  λ st, (hashes st !! p, st).

(** [s.hashes[p] = h] *)
Definition cache_store (p h : string) : M unit := λ st, (tt, stored p h st).

Definition pkg_open (w : World) (d p : string) : M (File + error) :=
  _ ← emit (EvOpen d p); mret (fs_open w d p).

Definition filepath_Glob (w : World) (pattern : string) : M (list string * option error) :=
  _ ← emit (EvGlob pattern); mret (fs_glob w pattern).

Definition call_Hash (hs : Hasher) (f : File) : M (string * option error) :=
  _ ← emit (EvHash f); mret (Hash hs f).

Definition err_of {A} (r : A + error) : option error :=
  match r with inl _ => None | inr e => Some e end.

(** ** The methods of [Server], in the order of the source *)

(** [func (s Server) open(p string) (f http.File, err error)] *)
Definition open (w : World) (s : Server) (p : string) : M (File + error) :=
  if decide (AltDir (options s) = "") then pkg_open w (dir s) p
  else
    r ← pkg_open w (AltDir (options s)) p;
    if os_IsNotExist (err_of r) then pkg_open w (dir s) p
    else mret r.

(** [func (s Server) hashedPath(p, h string) string] *)
Definition hashedPath (p h : string) : string :=
  if decide (h = "") then p
  else
    let '(d, f) := GoPath.Split p in
    let i := LastIndexByte f "." in
    if 0 <? i then
      d +:+ take (Z.to_nat i) f +:+ "." +:+ h +:+ drop (Z.to_nat i) f
    else d +:+ f +:+ "." +:+ h.

(** The [for i, part := range parts] loop of [canonicalPath]: [i] is the
    current index, [skip] is [l-index] and [f] the name built so far. *)
Fixpoint canonicalPath_loop (hs : Hasher) (skip i : Z) (parts : list string)
    (f : string) : string :=
  match parts with
  | [] => f
  | part :: rest =>
      if (i =? skip) && IsHash hs part
      then canonicalPath_loop hs skip (i + 1) rest f
      else
        let f := if negb (i =? 0) then f +:+ "." else f in
        canonicalPath_loop hs skip (i + 1) rest (f +:+ part)
  end.

(** [func (s Server) canonicalPath(p string) string].  The method
    dereferences [s.Hasher]; all its callers run behind a
    [s.Hasher != nil] test, so the model receives that Hasher. *)
Definition canonicalPath (hs : Hasher) (p : string) : string :=
  let '(d, f) := GoPath.Split p in
  let parts := GoStrings.Split f "." in
  let l := Z.of_nat (length parts) in
  let index :=
    if (2 <? l) && negb ((l =? 3) && bool_decide (parts !! 0%nat = Some ""))
    then 2 else 1 in
  d +:+ canonicalPath_loop hs (l - index) 0 parts "".

(** [func (s *Server) hash(p string) (h string, cont bool, err error)].
    The method calls [s.Hasher.Hash] and runs only behind a
    [s.Hasher != nil] test; the model receives that Hasher.  The named
    result [h] is the empty string until the Hasher sets it. *)
Definition hash (w : World) (hs : Hasher) (s : Server) (p : string)
    : M (string * bool * option error) :=
  cached ← cache_load p;
  match cached with
  | Some h => mret (h, false, None)
  | None =>
      r ← open w s p;
      match r with
      | inr e => mret ("", true, Some e)
      | inl f =>
          match Stat f with
          | inr e => mret ("", true, Some e)
          | inl d =>
              if negb (IsRegular (Mode d))
              then mret ("", false, Some errNotRegularFile)
              else
                '(h, err) ← call_Hash hs f;
                match err with
                | Some e => mret (h, false, Some e)
                | None => _ ← cache_store p h; mret (h, false, None)
                end
          end
      end
  end.

(** The [for _, filename := range s.Filenames] loop of [hashFromFilename].
    [filepath.Join] and [filepath.Ext] are [path.Join] and [path.Ext] where
    the separator is a slash. *)
Definition filename_matches (s : Server) (fn : string) (filenames : list string)
    : list string :=
  let prefix := GoPath.Join (dir s) fn in
  let altPrefix := GoPath.Join (AltDir (options s)) fn in
  filename ← filenames;
  (if decide (AltDir (options s) = "") then []
   else if HasPrefix filename altPrefix then [filename] else [])
  ++ (if HasPrefix filename prefix then [filename] else []).

(** The digest segment that [hashFromFilename] reads off a match. *)
Definition candidate (ext match_ : string) : string :=
  TrimLeft (GoPath.Ext (TrimSuffix match_ ext)) ".".

(** The [for _, match := range matches] loop of [hashFromFilename]:
    [None] is the early [return "", true, errNotFound], [Some h] the
    value of [h] when the loop ends. *)
Fixpoint hashFromFilename_loop (hs : Hasher) (p ext : string)
    (matches : list string) (h : string) : option string :=
  match matches with
  | [] => Some h
  | match_ :: rest =>
      if HasSuffix (canonicalPath hs match_) p then
        let h := candidate ext match_ in
        if negb (IsHash hs h) then None
        else hashFromFilename_loop hs p ext rest h
      else hashFromFilename_loop hs p ext rest h
  end.

(** The first half of [hashFromFilename]: the list [matches], or the error
    of a failed glob. *)
Definition hashFromFilename_matches (w : World) (s : Server) (p : string)
    : M (list string * option error) :=
  let ext := GoPath.Ext p in
  let fn := TrimSuffix p ext in
  match Filenames (options s) with
  | Some filenames => mret (filename_matches s fn filenames, None)
  | None =>
      let pattern :=
        if decide (ext = "") then p +:+ ".*" else fn +:+ ".*" +:+ ext in
      '(matches, err) ←
        (if decide (AltDir (options s) = "") then mret ([], None)
         else filepath_Glob w (GoPath.Join (AltDir (options s)) pattern));
      match err with
      | Some e => mret (matches, Some e)
      | None =>
          '(m, err) ← filepath_Glob w (GoPath.Join (dir s) pattern);
          match err with
          | Some e => mret (matches, Some e)
          | None => mret (matches ++ m, None)
          end
      end
  end.

(** [func (s *Server) hashFromFilename(p string) (h string, cont bool, err error)] *)
Definition hashFromFilename (w : World) (hs : Hasher) (s : Server) (p : string)
    : M (string * bool * option error) :=
  cached ← cache_load p;
  match cached with
  | Some h => mret (h, false, None)
  | None =>
      '(matches, err) ← hashFromFilename_matches w s p;
      match err with
      | Some e => mret ("", true, Some e)
      | None =>
          match hashFromFilename_loop hs p (GoPath.Ext p) matches "" with
          | None => mret ("", true, Some errNotFound)
          | Some h => _ ← cache_store p h; mret (h, false, None)
          end
      end
  end.

(** [func (s *Server) HashedPath(p string) (string, error)] *)
Definition HashedPath (w : World) (s : Server) (p : string)
    : M (string * option error) :=
  match opt_Hasher (options s) with
  | None => mret (GoPath.Join (root s) p, None)
  | Some hs =>
      '(h, cont, err) ← hash w hs s p;
      '(h, err) ←
        match err with
        | None => mret (h, err)
        | Some _ =>
            if cont : bool then
              '(h', _, err') ← hashFromFilename w hs s p; mret (h', err')
            else mret (h, err)
        end;
      match err with
      | Some e => mret ("", Some e)
      | None => mret (GoPath.Join (root s) (hashedPath p h), None)
      end
  end.

(** ** Responses *)

Inductive HandlerRef : Type :=
  | DefaultNotFoundHandler
  | DefaultForbiddenHandler
  | DefaultInternalServerErrorHandler
  | Custom (h : Handler).

(** What [ServeHTTP] does to answer: [redirect(w, r, location)], the
    handler picked by [httpError], or [http.ServeContent] with a name, a
    modification time and a file; [Panic] is an index out of range. *)
Inductive Response : Type :=
  | Redirect (location : string)
  | Handled (h : HandlerRef)
  | ServeContent (name : string) (modtime : Z) (f : File)
  | Panic.

Definition or_default (h : option Handler) (d : HandlerRef) : HandlerRef :=
  match h with Some h => Custom h | None => d end.

(** [func (s Server) httpError(w, r, err)] *)
Definition httpError (s : Server) (err : error) : Response :=
  if os_IsNotExist (Some err) || bool_decide (err = errNotFound)
  then Handled (or_default (NotFoundHandler (options s)) DefaultNotFoundHandler)
  else if os_IsPermission (Some err)
  then Handled (or_default (ForbiddenHandler (options s)) DefaultForbiddenHandler)
  else Handled (or_default (InternalServerErrorHandler (options s))
                  DefaultInternalServerErrorHandler).

Record Request : Type := {
  URL_Path : string;
  URL_RawQuery : string
}.

(** [r.URL.Path] after the first lines of [ServeHTTP]. *)
Definition slashed (urlPath : string) : string :=
  if HasPrefix urlPath "/" then urlPath else "/" +:+ urlPath.

(** [p] after [path.Clean] and the stripping of [s.root]. *)
Definition stripped (s : Server) (urlPath : string) : string :=
  let p := GoPath.Clean urlPath in
  if decide (root s = "") then p else TrimPrefix p (root s).

(** The [if s.RedirectTrailingSlash] block: [Some] is an early return. *)
Definition trailing_slash (s : Server) (url : string) (d : FileInfo)
    : option Response :=
  if RedirectTrailingSlash (options s) then
    match last_byte url with
    | None => Some Panic
    | Some c =>
        if IsDir d then
          if negb (bool_decide (c = "/"%char)) then Some (Redirect (url +:+ "/"))
          else None
        else
          if bool_decide (c = "/"%char)
          then Some (Redirect ("../" +:+ GoPath.Base url))
          else None
    end
  else None.

(** [ServeHTTP] from [f, err := s.open(p)] to its end; [url] is
    [r.URL.Path] at that point. *)
Definition ServeHTTP_open (w : World) (s : Server) (p url : string) : M Response :=
  r ← open w s p;
  match r with
  | inr e => mret (httpError s e)
  | inl f =>
      match Stat f with
      | inr e => mret (httpError s e)
      | inl d =>
          match trailing_slash s url d with
          | Some resp => mret resp
          | None =>
              '(d, f) ←
                (if IsDir d then
                   let index := TrimSuffix p "/" +:+ IndexPage (options s) in
                   rr ← open w s index;
                   match rr with
                   | inl ff =>
                       match Stat ff with
                       | inl dd => mret (dd, ff)
                       | inr _ => mret (d, f)
                       end
                   | inr _ => mret (d, f)
                   end
                 else mret (d, f));
              if IsDir d then mret (httpError s errNotFound)
              else mret (ServeContent (Name d) (ModTime d) f)
          end
      end
  end.

(** The test that guards the hash block of [ServeHTTP]. *)
Definition hashing (s : Server) (r : Request) : option Hasher :=
  match opt_Hasher (options s) with
  | Some hs =>
      if negb (NoHashQueryStrings (options s))
         || (NoHashQueryStrings (options s) && (len (URL_RawQuery r) =? 0))
      then Some hs else None
  | None => None
  end.

(** The test [s.root != "" && len(p) >= len(r.URL.Path)], with [p] already
    stripped. *)
Definition root_mismatch (s : Server) (urlPath : string) : bool :=
  negb (bool_decide (root s = "")) && (len urlPath <=? len (stripped s urlPath)).

(** The test [s.IndexPage != "" && strings.HasSuffix(r.URL.Path, s.IndexPage)]. *)
Definition index_shortcut (s : Server) (urlPath : string) : bool :=
  negb (bool_decide (IndexPage (options s) = ""))
  && HasSuffix urlPath (IndexPage (options s)).

(** [func (s *Server) ServeHTTP(w http.ResponseWriter, r *http.Request)] *)
Definition ServeHTTP (w : World) (s : Server) (r : Request) : M Response :=
  let urlPath := slashed (URL_Path r) in
  let p := stripped s urlPath in
  if root_mismatch s urlPath then mret (httpError s errNotFound)
  else if index_shortcut s urlPath then mret (Redirect "./")
  else
    match hashing s r with
    | None => ServeHTTP_open w s p urlPath
    | Some hs =>
        let cPath := canonicalPath hs p in
        '(h, cont, err) ← hash w hs s cPath;
        match err with
        | Some errNotRegularFile => ServeHTTP_open w s p urlPath
        | None =>
            let hPath := hashedPath cPath h in
            if negb (bool_decide (hPath = p))
            then mret (Redirect (GoPath.Join (root s) hPath))
            else
              match last_byte urlPath with
              | None =>
                  if RedirectTrailingSlash (options s) then mret Panic
                  else ServeHTTP_open w s cPath (GoPath.Join (root s) cPath)
              | Some c =>
                  if RedirectTrailingSlash (options s) && bool_decide (c = "/"%char)
                  then mret (Redirect (GoPath.Join (root s) p))
                  else ServeHTTP_open w s cPath (GoPath.Join (root s) cPath)
              end
        | Some e =>
            if negb cont then mret (httpError s e)
            else ServeHTTP_open w s p urlPath
        end
    end.

(** ** Auxiliary definitions for the statements *)

(** A directory part as [path.Split] returns it: empty or ending in a
    slash. *)
Definition is_dir_part (d : string) : bool :=
  bool_decide (d = "") || HasSuffix d "/".

(** The parts after the first, each behind its separator. *)
Fixpoint dotted (c : ascii) (parts : list string) : string :=
  match parts with
  | [] => ""
  | p :: ps => String c p +:+ dotted c ps
  end.

(** Which matches the loop of [hashFromFilename] looks at: those whose
    canonical form ends with [p]. *)
Definition selected (hs : Hasher) (p match_ : string) : bool :=
  HasSuffix (canonicalPath hs match_) p.

(** A test double for the [Hasher] interface: every file hashes to
    [digest], and [digest] is the only string recognised as a hash. *)
Definition stubHasher (digest : string) : Hasher :=
  {| Hash := λ _, (digest, None);
     IsHash := λ s, bool_decide (s = digest) |}.

(** ** A small site for the examples

    The primary directory [public] holds [css/app.css] and a file [other];
    the alternate directory [alt] holds [logo.png] and an unreadable
    [secret]. *)

Definition regular_file (path content : string) (mtime : Z) : File :=
  {| file_path := path; file_content := content;
     Stat := inl {| Name := GoPath.Base path; ModTime := mtime;
                    Mode := ModeRegular |} |}.

Definition directory (path : string) (mtime : Z) : File :=
  {| file_path := path; file_content := "";
     Stat := inl {| Name := GoPath.Base path; ModTime := mtime;
                    Mode := ModeDir |} |}.

Definition site : World :=
  {| fs_open := λ d name,
       if decide (d = "public") then
         if decide (name = "/css/app.css")
         then inl (regular_file "public/css/app.css" "body{}" 1)
         else if decide (name = "/css") then inl (directory "public/css" 2)
         else if decide (name = "/other")
         then inl (regular_file "public/other" "other" 3)
         else inr ErrNotExist
       else if decide (d = "alt") then
         if decide (name = "/logo.png")
         then inl (regular_file "alt/logo.png" "PNG" 4)
         else if decide (name = "/secret") then inr ErrPermission
         else inr ErrNotExist
       else inr ErrNotExist;
     fs_glob := λ pattern,
       if decide (pattern = "public/css/app.*.css")
       then (["public/css/app.deadbeef.css"], None)
       else ([], None) |}.

Definition site_options (hasher : option Hasher) (altdir : string)
    (filenames : option (list string)) : Options :=
  {| opt_Hasher := hasher; NoHashQueryStrings := false;
     RedirectTrailingSlash := false; IndexPage := "index.html";
     AltDir := altdir; Filenames := filenames;
     NotFoundHandler := None; ForbiddenHandler := None;
     InternalServerErrorHandler := None |}.


(** The state of a fresh server: an empty cache, nothing called yet. *)
Definition fresh : State := {| hashes := ∅; trace := [] |}.

(** ** Definitions for the further properties *)

(** The response is the index-out-of-range panic. *)
Definition is_Panic (resp : Response) : bool :=
  match resp with Panic => true | _ => false end.

(** [s] with the [Hasher] option set to nil. *)
Definition without_Hasher (s : Server) : Server :=
  {| options :=
       {| opt_Hasher := None;
          NoHashQueryStrings := NoHashQueryStrings (options s);
          RedirectTrailingSlash := RedirectTrailingSlash (options s);
          IndexPage := IndexPage (options s);
          AltDir := AltDir (options s);
          Filenames := Filenames (options s);
          NotFoundHandler := NotFoundHandler (options s);
          ForbiddenHandler := ForbiddenHandler (options s);
          InternalServerErrorHandler := InternalServerErrorHandler (options s) |};
     root := root s; dir := dir s |}.

(** The digest that [hashFromFilename] ends with when its loop runs to the
    end: the candidate of the last selected match, or [h] without one. *)
Definition last_candidate (hs : Hasher) (p ext : string)
    (matches : list string) (h : string) : string :=
  foldl (λ h m, if selected hs p m then candidate ext m else h) h matches.

(** A test double for the [Hasher] interface that takes every string of
    [n] bytes for a digest. *)
Definition lengthHasher (n : nat) (digest : string) : Hasher :=
  {| Hash := λ _, (digest, None);
     IsHash := λ s, bool_decide (String.length s = n) |}.

(** A site with a directory [docs] that has an index page, a directory
    [empty] that has none, and a file [readme]. *)
Definition docs_site : World :=
  {| fs_open := λ d name,
       if decide (d = "public") then
         if decide (name = "/docs") then inl (directory "public/docs" 5)
         else if decide (name = "/docs/index.html")
         then inl (regular_file "public/docs/index.html" "<html>" 6)
         else if decide (name = "/empty") then inl (directory "public/empty" 7)
         else if decide (name = "/readme")
         then inl (regular_file "public/readme" "read me" 8)
         else inr ErrNotExist
       else inr ErrNotExist;
     fs_glob := λ pattern, ([], None) |}.

Definition docs_options (slash : bool) : Options :=
  {| opt_Hasher := None; NoHashQueryStrings := false;
     RedirectTrailingSlash := slash; IndexPage := "/index.html";
     AltDir := ""; Filenames := None;
     NotFoundHandler := Some "custom-404"; ForbiddenHandler := None;
     InternalServerErrorHandler := None |}.

(** ** The standard-library model on the examples of its documentation *)

Example Split_abc : GoStrings.Split "a.b.c" "." = ["a"; "b"; "c"].
Proof. reflexivity. Qed.

Example Split_dotfile : GoStrings.Split ".env" "." = [""; "env"].
Proof. reflexivity. Qed.

Example path_Split_nested : GoPath.Split "/css/app.css" = ("/css/", "app.css").
Proof. reflexivity. Qed.

Example path_Split_plain : GoPath.Split "README" = ("", "README").
Proof. reflexivity. Qed.

Example Clean_examples :
  GoPath.Clean "/a//b/./c/../d/" = "/a/b/d" ∧ GoPath.Clean "/../a" = "/a" ∧
  GoPath.Clean "a/../.." = ".." ∧ GoPath.Clean "/" = "/" ∧
  GoPath.Clean "" = "." ∧ GoPath.Clean "../../x" = "../../x" ∧
  GoPath.Clean "abc/def/../../.." = "..".
Proof. repeat split; reflexivity. Qed.

Example Join_examples :
  GoPath.Join "/static" "/css/app.css" = "/static/css/app.css" ∧
  GoPath.Join "" "/css/app.css" = "/css/app.css" ∧
  GoPath.Join "" "" = "" ∧ GoPath.Join "/static" "" = "/static".
Proof. repeat split; reflexivity. Qed.

Example Base_examples :
  GoPath.Base "/css/app.css/" = "app.css" ∧ GoPath.Base "///" = "/" ∧
  GoPath.Base "" = "." ∧ GoPath.Base "a/b" = "b".
Proof. repeat split; reflexivity. Qed.

Example Ext_examples :
  GoPath.Ext "/css/app.css" = ".css" ∧ GoPath.Ext "/a.b/README" = "" ∧
  GoPath.Ext "/.env" = ".env".
Proof. repeat split; reflexivity. Qed.

(** Boolean comparisons on [Z] whose sides are known to [lia]. *)
Ltac zbool :=
  match goal with
  | |- true = (_ =? _) => symmetry; apply Z.eqb_eq; lia
  | |- false = (_ =? _) => symmetry; apply Z.eqb_neq; lia
  | |- true = (_ <? _) => symmetry; apply Z.ltb_lt; lia
  | |- false = (_ <? _) => symmetry; apply Z.ltb_ge; lia
  | |- true = (_ <=? _) => symmetry; apply Z.leb_le; lia
  | |- false = (_ <=? _) => symmetry; apply Z.leb_gt; lia
  end.

(** ** Facts about strings, indices and splitting *)

Section StringFacts.
Implicit Types (s t a b : string) (c x : ascii).

Lemma append_cons x s t : String x s +:+ t = String x (s +:+ t).
Proof. reflexivity. Qed.

Lemma append_empty_l s : "" +:+ s = s.
Proof. reflexivity. Qed.

Lemma append_empty_r s : s +:+ "" = s.
Proof. induction s as [|x s IH]; [done|]. by rewrite append_cons, IH. Qed.

Lemma append_assoc s t a : (s +:+ t) +:+ a = s +:+ t +:+ a.
Proof. induction s as [|x s IH]; [done|]. by rewrite !append_cons, IH. Qed.

Lemma append_eq_empty s t : s +:+ t = "" → s = "" ∧ t = "".
Proof. destruct s; [done|]. by rewrite append_cons. Qed.

Lemma take_app s t : take (String.length s) (s +:+ t) = s.
Proof.
  induction s as [|x s IH]; [by destruct t|].
  rewrite append_cons. simpl. by rewrite IH.
Qed.

Lemma drop_app s t : drop (String.length s) (s +:+ t) = t.
Proof.
  induction s as [|x s IH]; [by destruct t|].
  rewrite append_cons. simpl. by rewrite IH.
Qed.

Lemma take_drop n s : take n s +:+ drop n s = s.
Proof.
  revert s. induction n as [|n IH]; intros [|x s]; simpl; try done.
  by rewrite append_cons, IH.
Qed.

Lemma Contains_app s t c : Contains (s +:+ t) c = Contains s c || Contains t c.
Proof.
  induction s as [|x s IH]; [done|].
  rewrite append_cons. simpl. by destruct (decide (x = c)).
Qed.

Lemma LastIndexByte_ge s c : -1 ≤ LastIndexByte s c.
Proof.
  induction s as [|x s IH]; simpl; [lia|].
  destruct (0 <=? LastIndexByte s c) eqn:E; [lia|].
  destruct (decide (x = c)); lia.
Qed.

Lemma LastIndexByte_free s c : Contains s c = false → LastIndexByte s c = -1.
Proof.
  induction s as [|x s IH]; simpl; [done|].
  destruct (decide (x = c)); [done|]. intros H. by rewrite (IH H).
Qed.

(** The index of the last [c] when the string is cut at it. *)
Lemma LastIndexByte_app s t c :
  Contains t c = false → LastIndexByte (s +:+ String c t) c = len s.
Proof.
  intros Ht. unfold len. induction s as [|x s IH].
  - rewrite append_empty_l. simpl. rewrite (LastIndexByte_free _ _ Ht). simpl.
    by destruct (decide (c = c)).
  - rewrite append_cons. simpl. rewrite IH.
    destruct (0 <=? Z.of_nat (String.length s)) eqn:E; lia.
Qed.

(** Every string either avoids [c] or can be cut at its last [c]. *)
Lemma last_cut s c :
  Contains s c = false ∨
  ∃ a t, s = a +:+ String c t ∧ Contains t c = false.
Proof.
  induction s as [|x s [IH|(a & t & -> & Ht)]].
  - by left.
  - simpl. destruct (decide (x = c)) as [->|]; [|by left].
    right. by exists "", s.
  - right. by exists (String x a), t.
Qed.

Lemma Split_nonempty s c : ∃ p ps, GoStrings.Split s c = p :: ps.
Proof.
  induction s as [|x s (p & ps & IH)]; simpl; [by eauto|].
  destruct (decide (x = c)); [by eauto|]. rewrite IH. by eauto.
Qed.

Lemma Split_free s c : Contains s c = false → GoStrings.Split s c = [s].
Proof.
  induction s as [|x s IH]; simpl; [done|].
  destruct (decide (x = c)); [done|]. intros H. by rewrite (IH H).
Qed.

(** Splitting distributes over a cut at the separator. *)
Lemma Split_app s t c :
  GoStrings.Split (s +:+ String c t) c = GoStrings.Split s c ++ GoStrings.Split t c.
Proof.
  induction s as [|x s IH].
  - rewrite append_empty_l. simpl. by destruct (decide (c = c)).
  - rewrite append_cons. simpl. destruct (decide (x = c)); [by rewrite IH|].
    rewrite IH. by destruct (Split_nonempty s c) as (p & ps & ->).
Qed.

Lemma dotted_app c ps qs : dotted c (ps ++ qs) = dotted c ps +:+ dotted c qs.
Proof.
  induction ps as [|p ps IH]; [done|].
  simpl. by rewrite IH, !append_cons, append_assoc.
Qed.

(** Splitting loses nothing: the parts and separators rebuild the string. *)
Lemma Split_rebuild s c p ps :
  GoStrings.Split s c = p :: ps → s = p +:+ dotted c ps.
Proof.
  revert p ps. induction s as [|x s IH]; intros p ps; simpl.
  - intros [= <- <-]. done.
  - destruct (decide (x = c)) as [->|].
    + intros [= <- <-]. rewrite append_empty_l.
      destruct (Split_nonempty s c) as (q & qs & E). rewrite E. simpl.
      by rewrite (IH _ _ E) at 1.
    + destruct (Split_nonempty s c) as (q & qs & E). rewrite E.
      intros [= <- <-]. by rewrite append_cons, <- (IH _ _ E).
Qed.

End StringFacts.

(** ** The path codec: [hashedPath] and [canonicalPath] *)

Section Codec.
Variable hs : Hasher.
Implicit Types (p d f h e : string).

Lemma is_dir_part_spec d :
  is_dir_part d = true ↔ d = "" ∨ ∃ d', d = d' +:+ "/".
Proof.
  unfold is_dir_part, HasSuffix. split.
  - intros [E%bool_decide_eq_true|H]%orb_true_iff; [by left|right].
    destruct (decide _) as [Hle|]; [|done].
    apply bool_decide_eq_true in H.
    set (k := (String.length d - String.length "/")%nat) in *.
    exists (take k d). by rewrite <- H, take_drop.
  - intros [->|[d' ->]]; [done|]. apply orb_true_iff. right.
    assert (String.length (d' +:+ "/") = S (String.length d')) as ->.
    { induction d' as [|x d' IH]; [done|]. rewrite append_cons. simpl. by rewrite IH. }
    simpl String.length. destruct (decide _) as [|Hn]; [|lia].
    apply bool_decide_eq_true.
    replace (S (String.length d') - 1)%nat with (String.length d') by lia.
    apply drop_app.
Qed.

Lemma path_Split_app d f :
  is_dir_part d = true → Contains f "/" = false →
  GoPath.Split (d +:+ f) = (d, f).
Proof.
  intros [->|[d' ->]]%is_dir_part_spec Hf; unfold GoPath.Split.
  - rewrite append_empty_l, (LastIndexByte_free _ _ Hf). by destruct f.
  - rewrite append_assoc, append_cons, append_empty_l, (LastIndexByte_app _ _ _ Hf).
    replace (Z.to_nat (len d' + 1)) with (String.length (d' +:+ "/")).
    + change (String "/" f) with ("/" +:+ f).
      by rewrite <- append_assoc, take_app, drop_app.
    + unfold len. clear. induction d' as [|x d' IH]; [done|].
      rewrite append_cons. simpl String.length. rewrite IH. lia.
Qed.

Lemma path_Split_spec p :
  ∃ d f, GoPath.Split p = (d, f) ∧ p = d +:+ f ∧
         is_dir_part d = true ∧ Contains f "/" = false.
Proof.
  destruct (last_cut p "/") as [Hp|(a & t & -> & Ht)].
  - exists "", p. split_and!; [|done|done|done].
    by apply (path_Split_app "" p).
  - exists (a +:+ "/"), t.
    assert (a +:+ String "/" t = (a +:+ "/") +:+ t) as E
      by by rewrite append_assoc.
    assert (is_dir_part (a +:+ "/") = true) as Hd
      by (apply is_dir_part_spec; right; by eexists).
    split_and!; [|done|done|done].
    rewrite E. by apply path_Split_app.
Qed.

(** The first part is kept when the index to skip lies further on. *)
Lemma canonicalPath_loop_first skip part rest :
  0 < skip →
  canonicalPath_loop hs skip 0 (part :: rest) ""
  = canonicalPath_loop hs skip 1 rest part.
Proof.
  intros H. cbn [canonicalPath_loop].
  replace (0 =? skip) with false by zbool. done.
Qed.

(** Once the loop is past the index to skip, it appends every part behind
    a dot. *)
Lemma canonicalPath_loop_past skip i parts f :
  skip < i → 0 < i →
  canonicalPath_loop hs skip i parts f = f +:+ dotted "." parts.
Proof.
  revert i f. induction parts as [|part rest IH]; intros i f Hs Hi; simpl.
  - by rewrite append_empty_r.
  - replace (i =? skip) with false by lia. replace (i =? 0) with false by lia.
    simpl. rewrite IH by lia. by rewrite !append_assoc.
Qed.

(** Up to the index to skip the loop appends as well, and there it drops
    a part that [IsHash] accepts. *)
Lemma canonicalPath_loop_skip skip i pre h post f :
  0 < i → skip = i + Z.of_nat (length pre) → IsHash hs h = true →
  canonicalPath_loop hs skip i (pre ++ h :: post) f
  = f +:+ dotted "." pre +:+ dotted "." post.
Proof.
  revert i f. induction pre as [|part pre IH]; intros i f Hi Hs Hh; simpl in *.
  - replace (i =? skip) with true by lia. rewrite Hh. simpl.
    by rewrite canonicalPath_loop_past by lia.
  - replace (i =? skip) with false by lia.
    replace (i =? 0) with false by lia. simpl.
    rewrite IH by (lia || done).
    by rewrite !append_assoc.
Qed.

(** ... and keeps a part that [IsHash] rejects. *)
Lemma canonicalPath_loop_keep skip i pre h post f :
  0 < i → skip = i + Z.of_nat (length pre) → IsHash hs h = false →
  canonicalPath_loop hs skip i (pre ++ h :: post) f
  = f +:+ dotted "." (pre ++ h :: post).
Proof.
  revert i f. induction pre as [|part pre IH]; intros i f Hi Hs Hh; simpl in *.
  - replace (i =? 0) with false by lia. rewrite Hh, andb_false_r. simpl.
    rewrite canonicalPath_loop_past by lia. by rewrite !append_assoc.
  - replace (i =? skip) with false by lia.
    replace (i =? 0) with false by lia. simpl.
    rewrite IH by (lia || done).
    by rewrite !append_assoc.
Qed.

End Codec.

Lemma len_to_nat s : Z.to_nat (len s) = String.length s.
Proof. unfold len. lia. Qed.

Lemma Contains_app_false s t c :
  Contains (s +:+ t) c = false → Contains s c = false ∧ Contains t c = false.
Proof. rewrite Contains_app. by intros [??]%orb_false_iff. Qed.

Lemma Contains_cons_false x s c :
  Contains (String x s) c = false → x ≠ c ∧ Contains s c = false.
Proof. simpl. by destruct (decide (x = c)). Qed.

(** A name of two parts: the candidate is the last part. *)
Lemma canonicalPath_two_parts hs d f x :
  is_dir_part d = true → Contains f "/" = false → Contains f "." = false →
  Contains x "/" = false → Contains x "." = false →
  canonicalPath hs (d +:+ f +:+ "." +:+ x)
  = if IsHash hs x then d +:+ f else d +:+ f +:+ "." +:+ x.
Proof.
  intros Hd Hf Hfd Hx Hxd. unfold canonicalPath.
  change ("." +:+ x) with (String "." x).
  rewrite path_Split_app; [|done|].
  2: { rewrite Contains_app, Hf. simpl. by rewrite Hx. }
  rewrite Split_app, (Split_free f), (Split_free x) by done.
  simpl. destruct (IsHash hs x); simpl; [done|].
  by rewrite !append_empty_l, !append_assoc.
Qed.

(** A dotfile name of three parts: the candidate is again the last part,
    by the guard [!(l == 3 && parts[0] == "")]. *)
Lemma canonicalPath_dotfile_three_parts hs d x y :
  is_dir_part d = true → Contains x "/" = false → Contains x "." = false →
  Contains y "/" = false → Contains y "." = false →
  canonicalPath hs (d +:+ "." +:+ x +:+ "." +:+ y)
  = if IsHash hs y then d +:+ "." +:+ x else d +:+ "." +:+ x +:+ "." +:+ y.
Proof.
  intros Hd Hx Hxd Hy Hyd. unfold canonicalPath.
  change ("." +:+ x +:+ "." +:+ y) with ("" +:+ String "." (x +:+ String "." y)).
  rewrite path_Split_app; [|done|].
  2: { simpl. rewrite Contains_app, Hx. simpl. by rewrite Hy. }
  rewrite !Split_app, (Split_free x), (Split_free y) by done.
  simpl. destruct (IsHash hs y); simpl; [done|].
  by rewrite !append_assoc.
Qed.

(** A name with a digest before its extension: the candidate is the part
    before the last one. *)
Lemma canonicalPath_before_ext hs d a h e :
  is_dir_part d = true → a ≠ "" → Contains a "/" = false →
  Contains h "/" = false → Contains h "." = false →
  Contains e "/" = false → Contains e "." = false →
  IsHash hs h = true →
  canonicalPath hs (d +:+ a +:+ "." +:+ h +:+ "." +:+ e) = d +:+ a +:+ "." +:+ e.
Proof.
  intros Hd Ha Has Hh Hhd He Hed Hok. unfold canonicalPath.
  change ("." +:+ h +:+ "." +:+ e) with (String "." (h +:+ String "." e)).
  rewrite path_Split_app; [|done|].
  2: { rewrite Contains_app, Has. simpl. rewrite Contains_app, Hh. simpl.
       by rewrite He. }
  rewrite !Split_app, (Split_free h), (Split_free e) by done.
  destruct (Split_nonempty a ".") as (p & ps & E). rewrite E.
  pose proof (Split_rebuild _ _ _ _ E) as Ea.
  assert (Z.of_nat (length ((p :: ps) ++ [h] ++ [e])) = Z.of_nat (length ps) + 3) as ->.
  { rewrite !length_app. simpl. lia. }
  assert ((2 <? Z.of_nat (length ps) + 3)
          && negb ((Z.of_nat (length ps) + 3 =? 3)
                   && bool_decide (((p :: ps) ++ [h] ++ [e]) !! 0%nat = Some ""))
          = true) as ->.
  { apply andb_true_iff. split; [apply Z.ltb_lt; lia|].
    rewrite negb_true_iff, andb_false_iff.
    destruct ps as [|q ps]; [right|left; apply Z.eqb_neq; simpl length; lia].
    apply bool_decide_eq_false. intros [= ->]. by subst a. }
  change ((p :: ps) ++ [h] ++ [e]) with (p :: ps ++ h :: [e]).
  rewrite canonicalPath_loop_first by lia.
  rewrite canonicalPath_loop_skip by (lia || done).
  f_equal. rewrite Ea. simpl. by rewrite !append_assoc, append_empty_r.
Qed.

(** ** Claims about the path codec *)

(** C9. Empty-digest identity: [hashedPath(c, "")] is [c], for every path
    [c]. *)
Theorem hashedPath_empty_digest (c : string) : hashedPath c "" = c.
Proof. reflexivity. Qed.

(** C1, amended. Round trip: for every path [c] and every digest [h] that
    is not empty, contains neither a dot nor a slash and is classified as a
    digest by the Hasher, [canonicalPath(hashedPath(c, h))] is [c].  No
    condition on the components of [c] is needed. *)
Theorem canonicalPath_hashedPath (hs : Hasher) (c h : string) :
  h ≠ "" → Contains h "." = false → Contains h "/" = false →
  IsHash hs h = true →
  canonicalPath hs (hashedPath c h) = c.
Proof.
  intros Hne Hhd Hhs Hok. unfold hashedPath.
  destruct (decide (h = "")); [done|].
  destruct (path_Split_spec c) as (d & f & -> & -> & Hd & Hf).
  destruct (last_cut f ".") as [Hfd|(a & e & -> & Hed)].
  - rewrite (LastIndexByte_free _ _ Hfd). simpl.
    rewrite canonicalPath_two_parts by done. by rewrite Hok.
  - rewrite (LastIndexByte_app _ _ _ Hed).
    apply Contains_app_false in Hf as [Has [_ He]%Contains_cons_false].
    destruct a as [|x a].
    + simpl. rewrite append_empty_l.
      change (String "." e +:+ "." +:+ h) with ("." +:+ e +:+ "." +:+ h).
      rewrite canonicalPath_dotfile_three_parts by done. by rewrite Hok.
    + replace (0 <? len (String x a)) with true
        by (unfold len; simpl String.length; zbool).
      rewrite len_to_nat, take_app, drop_app.
      change (String "." e) with ("." +:+ e).
      by rewrite canonicalPath_before_ext.
Qed.

Lemma canonicalPath_hashedPath_witness :
  "deadbeef" ≠ "" ∧ Contains "deadbeef" "." = false ∧
  Contains "deadbeef" "/" = false ∧
  IsHash (stubHasher "deadbeef") "deadbeef" = true ∧
  canonicalPath (stubHasher "deadbeef") (hashedPath "/css/app.css" "deadbeef")
  = "/css/app.css".
Proof.
  split_and!; [discriminate|reflexivity|reflexivity|reflexivity|].
  apply (canonicalPath_hashedPath (stubHasher "deadbeef") "/css/app.css" "deadbeef");
    [discriminate|reflexivity|reflexivity|reflexivity].
Defined.

(** C1 as stated fails for a digest that contains a slash (as base64
    digests do) or a dot: the hypotheses of the claim hold, and the round
    trip returns the hashed path instead of [c]. *)
Lemma roundtrip_fails_on_slash_or_dot_digest :
  ("3q2/7w" ≠ "" ∧ IsHash (stubHasher "3q2/7w") "3q2/7w" = true ∧
   (∀ part, part ∈ GoStrings.Split "/css/app.css" "." →
            IsHash (stubHasher "3q2/7w") part = false) ∧
   (∀ part, part ∈ GoStrings.Split "app.css" "." →
            IsHash (stubHasher "3q2/7w") part = false) ∧
   hashedPath "/css/app.css" "3q2/7w" = "/css/app.3q2/7w.css" ∧
   canonicalPath (stubHasher "3q2/7w") (hashedPath "/css/app.css" "3q2/7w")
   = "/css/app.3q2/7w.css" ∧
   canonicalPath (stubHasher "3q2/7w") (hashedPath "/css/app.css" "3q2/7w")
   ≠ "/css/app.css")
  ∧
  ("v1.2" ≠ "" ∧ IsHash (stubHasher "v1.2") "v1.2" = true ∧
   (∀ part, part ∈ GoStrings.Split "/css/app.css" "." →
            IsHash (stubHasher "v1.2") part = false) ∧
   canonicalPath (stubHasher "v1.2") (hashedPath "/css/app.css" "v1.2")
   = "/css/app.v1.2.css" ∧
   canonicalPath (stubHasher "v1.2") (hashedPath "/css/app.css" "v1.2")
   ≠ "/css/app.css").
Proof.
  assert (∀ (P : string → Prop) (l : list string),
            Forall P l → ∀ part, part ∈ l → P part) as all
    by (intros P l H part Hin; by eapply Forall_forall in H).
  split; split_and!; try discriminate; try reflexivity;
    apply all; repeat constructor.
Qed.

(** C7, amended. In a dotfile name [.x] of two parts the candidate digest
    is the last part [x]: [canonicalPath] removes it exactly when [IsHash]
    accepts it, so ["/.env"] is returned unchanged by every Hasher that
    does not take ["env"] for a digest.  The guard on three parts concerns
    names [.x.y]: there the candidate is the last part [y] and never [x]. *)
Theorem canonicalPath_dotfile (hs : Hasher) (d x y : string) :
  is_dir_part d = true →
  Contains x "/" = false → Contains x "." = false →
  Contains y "/" = false → Contains y "." = false →
  canonicalPath hs (d +:+ "." +:+ x)
  = (if IsHash hs x then d else d +:+ "." +:+ x)
  ∧ canonicalPath hs (d +:+ "." +:+ x +:+ "." +:+ y)
    = (if IsHash hs y then d +:+ "." +:+ x else d +:+ "." +:+ x +:+ "." +:+ y).
Proof.
  intros Hd Hx Hxd Hy Hyd. split.
  - pose proof (canonicalPath_two_parts hs d "" x Hd eq_refl eq_refl Hx Hxd) as H.
    rewrite !append_empty_l in H. rewrite H. destruct (IsHash hs x); [|done].
    apply append_empty_r.
  - by apply canonicalPath_dotfile_three_parts.
Qed.

Lemma canonicalPath_dotfile_witness :
  is_dir_part "/" = true ∧
  Contains "env" "/" = false ∧ Contains "env" "." = false ∧
  Contains "deadbeef" "/" = false ∧ Contains "deadbeef" "." = false ∧
  canonicalPath (stubHasher "deadbeef") "/.env" = "/.env" ∧
  canonicalPath (stubHasher "deadbeef") "/.env.deadbeef" = "/.env".
Proof.
  split_and!; [reflexivity..| |];
    apply (canonicalPath_dotfile (stubHasher "deadbeef") "/" "env" "deadbeef");
    reflexivity.
Defined.

(** C7 as stated fails: a name of exactly two parts with an empty first
    part loses its last part when the Hasher takes that part for a digest,
    and so does ["/.env"] under a Hasher that accepts ["env"]. *)
Lemma dotfile_digest_removed :
  GoStrings.Split ".deadbeef" "." = [""; "deadbeef"] ∧
  canonicalPath (stubHasher "deadbeef") "/.deadbeef" = "/" ∧
  canonicalPath (stubHasher "deadbeef") "/.deadbeef" ≠ "/.deadbeef" ∧
  canonicalPath (stubHasher "env") "/.env" ≠ "/.env".
Proof. split_and!; try reflexivity; discriminate. Qed.

(** ** The file resolver and the hash cache *)

(** Unfolds the monad down to state passing. *)
Ltac run_monad :=
  unfold mbind, M_bind, mret, M_ret, cache_load, cache_store, call_Hash,
    filepath_Glob, pkg_open, emit in *; simpl in *.

Lemma log_log st evs evs' : log (log st evs) evs' = log st (evs ++ evs').
Proof. unfold log. simpl. by rewrite <- List.app_assoc. Qed.

Lemma open_no_alt w s p st :
  AltDir (options s) = "" →
  open w s p st = (fs_open w (dir s) p, log st [EvOpen (dir s) p]).
Proof. intros H. unfold open. rewrite H. by run_monad. Qed.

Lemma open_alt w s p st :
  AltDir (options s) ≠ "" →
  open w s p st =
    if os_IsNotExist (err_of (fs_open w (AltDir (options s)) p))
    then (fs_open w (dir s) p,
          log st [EvOpen (AltDir (options s)) p; EvOpen (dir s) p])
    else (fs_open w (AltDir (options s)) p,
          log st [EvOpen (AltDir (options s)) p]).
Proof.
  intros H. unfold open. destruct (decide _) as [|_]; [done|]. run_monad.
  destruct (os_IsNotExist _); run_monad; [|done].
  unfold log. simpl. by rewrite <- List.app_assoc.
Qed.

(** C6. Directory fallback precedence.  Without an alternate directory
    [open] makes one call, on the primary directory.  With one it calls the
    alternate directory first; when that attempt fails with a not-found
    error it makes a second call, on the primary directory, and returns its
    result; when the attempt succeeds or fails with any other error it
    returns that result unchanged and makes no second call. *)
Theorem open_fallback_precedence (w : World) (s : Server) (p : string) (st : State) :
  (AltDir (options s) = "" →
   open w s p st = (fs_open w (dir s) p, log st [EvOpen (dir s) p]))
  ∧ (AltDir (options s) ≠ "" →
     fs_open w (AltDir (options s)) p = inr ErrNotExist →
     open w s p st
     = (fs_open w (dir s) p,
        log st [EvOpen (AltDir (options s)) p; EvOpen (dir s) p]))
  ∧ (AltDir (options s) ≠ "" →
     fs_open w (AltDir (options s)) p ≠ inr ErrNotExist →
     open w s p st
     = (fs_open w (AltDir (options s)) p,
        log st [EvOpen (AltDir (options s)) p])).
Proof.
  split_and!.
  - apply open_no_alt.
  - intros Ha He. by rewrite open_alt, He.
  - intros Ha He. rewrite open_alt by done.
    destruct (fs_open w (AltDir (options s)) p) as [f|[]]; done.
Qed.

Lemma open_fallback_precedence_witness :
  open site (New "" "public" (Some (site_options None "" None))) "/css/app.css" fresh
  = (inl (regular_file "public/css/app.css" "body{}" 1),
     log fresh [EvOpen "public" "/css/app.css"])
  ∧ open site (New "" "public" (Some (site_options None "alt" None))) "/css/app.css" fresh
    = (inl (regular_file "public/css/app.css" "body{}" 1),
       log fresh [EvOpen "alt" "/css/app.css"; EvOpen "public" "/css/app.css"])
  ∧ open site (New "" "public" (Some (site_options None "alt" None))) "/secret" fresh
    = (inr ErrPermission, log fresh [EvOpen "alt" "/secret"])
  ∧ open site (New "" "public" (Some (site_options None "alt" None))) "/logo.png" fresh
    = (inl (regular_file "alt/logo.png" "PNG" 4), log fresh [EvOpen "alt" "/logo.png"]).
Proof.
  split_and!.
  - by apply (open_fallback_precedence site
                (New "" "public" (Some (site_options None "" None)))).
  - by apply (open_fallback_precedence site
                (New "" "public" (Some (site_options None "alt" None))) "/css/app.css").
  - by apply (open_fallback_precedence site
                (New "" "public" (Some (site_options None "alt" None))) "/secret").
  - by apply (open_fallback_precedence site
                (New "" "public" (Some (site_options None "alt" None))) "/logo.png").
Defined.

(** A cache hit answers at once and leaves the state as it is. *)
Lemma hash_hit w hs s p st h :
  hashes st !! p = Some h → hash w hs s p st = ((h, false, None), st).
Proof. intros H. unfold hash. run_monad. by rewrite H. Qed.

(** A digest returned without error is in the cache afterwards. *)
Lemma hash_ok_cached w hs s p st h cont st1 :
  hash w hs s p st = ((h, cont, None), st1) → hashes st1 !! p = Some h.
Proof.
  unfold hash. run_monad. destruct (hashes st !! p) as [h0|] eqn:E.
  - by intros [= <- _ <-].
  - destruct (open w s p st) as [[f|e] st']; [|done].
    destruct (Stat f) as [d|e]; [|done].
    destruct (IsRegular (Mode d)); simpl; [|done].
    destruct (Hash hs f) as [h' [e|]]; [done|].
    intros [= <- _ <-]. simpl. apply lookup_insert_eq.
Qed.

(** C8. Idempotent cache: when a call of [hash] on [p] returns the digest
    [h] with a nil error, a following call on the same [p] returns [h]
    again with a nil error, whatever the filesystem holds by then, and
    leaves the state untouched: it opens no file and does not call the
    Hasher (the trace does not grow) and the cache stays as it was. *)
Theorem hash_second_lookup_cached (w1 w2 : World) (hs : Hasher) (s : Server)
    (p h : string) (cont : bool) (st st1 : State) :
  hash w1 hs s p st = ((h, cont, None), st1) →
  hash w2 hs s p st1 = ((h, false, None), st1).
Proof. intros H. apply hash_hit. by eapply hash_ok_cached. Qed.

Lemma hash_second_lookup_cached_witness :
  hash site (stubHasher "deadbeef") (New "" "public" None) "/css/app.css" fresh
  = (("deadbeef", false, None),
     stored "/css/app.css" "deadbeef"
       (log fresh [EvOpen "public" "/css/app.css";
                   EvHash (regular_file "public/css/app.css" "body{}" 1)]))
  ∧ hash site (stubHasher "deadbeef") (New "" "public" None) "/css/app.css"
      (stored "/css/app.css" "deadbeef"
         (log fresh [EvOpen "public" "/css/app.css";
                     EvHash (regular_file "public/css/app.css" "body{}" 1)]))
    = (("deadbeef", false, None),
       stored "/css/app.css" "deadbeef"
         (log fresh [EvOpen "public" "/css/app.css";
                     EvHash (regular_file "public/css/app.css" "body{}" 1)])).
Proof.
  assert (hash site (stubHasher "deadbeef") (New "" "public" None) "/css/app.css" fresh
          = (("deadbeef", false, None),
             stored "/css/app.css" "deadbeef"
               (log fresh [EvOpen "public" "/css/app.css";
                           EvHash (regular_file "public/css/app.css" "body{}" 1)])))
    as H by reflexivity.
  split; [exact H|].
  exact (hash_second_lookup_cached site site _ _ _ _ _ _ _ H).
Defined.

(** C10. Without a Hasher, [HashedPath(p)] is [path.Join(s.root, p)] with a
    nil error, for every [p]; the state is returned as it was, so the cache
    is neither read into nor written and nothing is opened. *)
Theorem HashedPath_without_Hasher (w : World) (s : Server) (p : string) (st : State) :
  opt_Hasher (options s) = None →
  HashedPath w s p st = ((GoPath.Join (root s) p, None), st).
Proof. intros H. unfold HashedPath. by rewrite H. Qed.

Lemma HashedPath_without_Hasher_witness :
  opt_Hasher (options (New "/static" "public" None)) = None
  ∧ HashedPath site (New "/static" "public" None) "/css/app.css" fresh
    = (("/static/css/app.css", None), fresh).
Proof.
  split; [reflexivity|].
  exact (HashedPath_without_Hasher site (New "/static" "public" None)
           "/css/app.css" fresh eq_refl).
Defined.

(** ** The request resolver *)

Lemma len_zero s : (len s =? 0) = bool_decide (s = "").
Proof. by destruct s. Qed.

(** The hash block of [ServeHTTP] runs for a configured Hasher, unless
    [NoHashQueryStrings] is set and the request carries a query string. *)
Lemma hashing_configured s r hs :
  opt_Hasher (options s) = Some hs →
  NoHashQueryStrings (options s) = false ∨ URL_RawQuery r = "" →
  hashing s r = Some hs.
Proof.
  intros Hh Hq. unfold hashing. rewrite Hh, len_zero.
  destruct Hq as [->| ->]; [done|]. by destruct (NoHashQueryStrings _).
Qed.

(** [ServeHTTP] once the request is past the root-prefix test and the
    index-page shortcut and the hash block applies. *)
Lemma ServeHTTP_hash_block w s r hs st :
  root_mismatch s (slashed (URL_Path r)) = false →
  index_shortcut s (slashed (URL_Path r)) = false →
  hashing s r = Some hs →
  ServeHTTP w s r st
  = let urlPath := slashed (URL_Path r) in
    let p := stripped s urlPath in
    let cPath := canonicalPath hs p in
    let '(h, cont, err, st1) := hash w hs s cPath st in
    match err with
    | Some errNotRegularFile => ServeHTTP_open w s p urlPath st1
    | None =>
        if negb (bool_decide (hashedPath cPath h = p))
        then (Redirect (GoPath.Join (root s) (hashedPath cPath h)), st1)
        else
          match last_byte urlPath with
          | None =>
              if RedirectTrailingSlash (options s) then (Panic, st1)
              else ServeHTTP_open w s cPath (GoPath.Join (root s) cPath) st1
          | Some c =>
              if RedirectTrailingSlash (options s) && bool_decide (c = "/"%char)
              then (Redirect (GoPath.Join (root s) p), st1)
              else ServeHTTP_open w s cPath (GoPath.Join (root s) cPath) st1
          end
    | Some e =>
        if negb cont then (httpError s e, st1)
        else ServeHTTP_open w s p urlPath st1
    end.
Proof.
  intros Hr Hi Hh. unfold ServeHTTP. rewrite Hr, Hi, Hh.
  unfold mbind, M_bind at 1.
  destruct (hash w hs s _ st) as [[[h cont] err] st1]. cbv zeta.
  destruct err as [[]|]; try done.
  - by destruct cont.
  - by destruct cont.
  - by destruct cont.
  - by destruct cont.
  - destruct (negb (bool_decide _)); [done|].
    destruct (last_byte _); [|by destruct (RedirectTrailingSlash _)].
    by destruct (_ && _).
Qed.

(** C2. Hash redirect: for a configured Hasher (and a request that the
    query-string option does not exempt), once the request is past the
    root-prefix test and the index-page shortcut, when the digest lookup for
    the canonical form of the cleaned request path returns [h] with a nil
    error and the hashed path built from them differs from the cleaned
    request path, [ServeHTTP] redirects to [path.Join(s.root, hashed path)]. *)
Theorem ServeHTTP_hash_redirect (w : World) (s : Server) (r : Request)
    (hs : Hasher) (h : string) (cont : bool) (st st1 : State) :
  opt_Hasher (options s) = Some hs →
  NoHashQueryStrings (options s) = false ∨ URL_RawQuery r = "" →
  root_mismatch s (slashed (URL_Path r)) = false →
  index_shortcut s (slashed (URL_Path r)) = false →
  hash w hs s (canonicalPath hs (stripped s (slashed (URL_Path r)))) st
  = ((h, cont, None), st1) →
  hashedPath (canonicalPath hs (stripped s (slashed (URL_Path r)))) h
  ≠ stripped s (slashed (URL_Path r)) →
  ServeHTTP w s r st
  = (Redirect
       (GoPath.Join (root s)
          (hashedPath (canonicalPath hs (stripped s (slashed (URL_Path r)))) h)),
     st1).
Proof.
  intros Hh Hq Hr Hi Hhash Hne.
  rewrite (ServeHTTP_hash_block w s r hs st Hr Hi (hashing_configured _ _ _ Hh Hq)).
  cbv zeta. rewrite Hhash. by rewrite bool_decide_eq_false_2.
Qed.

Lemma ServeHTTP_hash_redirect_witness :
  hashedPath "/css/app.css" "deadbeef" = "/css/app.deadbeef.css"
  ∧ ServeHTTP site
      (New "/static" "public"
         (Some (site_options (Some (stubHasher "deadbeef")) "" None)))
      {| URL_Path := "/static/css/app.css"; URL_RawQuery := "v=1" |} fresh
    = (Redirect "/static/css/app.deadbeef.css",
       stored "/css/app.css" "deadbeef"
         (log fresh [EvOpen "public" "/css/app.css";
                     EvHash (regular_file "public/css/app.css" "body{}" 1)])).
Proof.
  split; [reflexivity|].
  apply (ServeHTTP_hash_redirect site
           (New "/static" "public"
              (Some (site_options (Some (stubHasher "deadbeef")) "" None)))
           {| URL_Path := "/static/css/app.css"; URL_RawQuery := "v=1" |}
           (stubHasher "deadbeef") "deadbeef" false fresh).
  - reflexivity.
  - left. reflexivity.
  - reflexivity.
  - reflexivity.
  - reflexivity.
  - intros H. vm_compute in H. discriminate H.
Defined.

(** ** The not-a-regular-file signal *)

(** [hash] raises the signal itself, with [cont] false, when the path opens
    and stats but is not a regular file. *)
Lemma hash_not_regular w hs s p st f d st1 :
  hashes st !! p = None →
  open w s p st = (inl f, st1) → Stat f = inl d → IsRegular (Mode d) = false →
  hash w hs s p st = (("", false, Some errNotRegularFile), st1).
Proof.
  intros Hc Ho Hs Hm. unfold hash. run_monad. by rewrite Hc, Ho, Hs, Hm.
Qed.

(** C4, amended. When the digest lookup signals not-a-regular-file,
    [ServeHTTP] does not render it: it answers as the ordinary code path
    does, opening the cleaned request path itself.  [HashedPath] has no
    such fallback: it returns the error to its caller, with an empty path. *)
Theorem errNotRegularFile_from_hash (w : World) (s : Server) (hs : Hasher) :
  opt_Hasher (options s) = Some hs →
  (∀ r h cont st st1,
     NoHashQueryStrings (options s) = false ∨ URL_RawQuery r = "" →
     root_mismatch s (slashed (URL_Path r)) = false →
     index_shortcut s (slashed (URL_Path r)) = false →
     hash w hs s (canonicalPath hs (stripped s (slashed (URL_Path r)))) st
     = ((h, cont, Some errNotRegularFile), st1) →
     ServeHTTP w s r st
     = ServeHTTP_open w s (stripped s (slashed (URL_Path r)))
         (slashed (URL_Path r)) st1)
  ∧ (∀ p h st st1,
       hash w hs s p st = ((h, false, Some errNotRegularFile), st1) →
       HashedPath w s p st = (("", Some errNotRegularFile), st1)).
Proof.
  intros Hh. split.
  - intros r h cont st st1 Hq Hr Hi Hhash.
    rewrite (ServeHTTP_hash_block w s r hs st Hr Hi (hashing_configured _ _ _ Hh Hq)).
    cbv zeta. by rewrite Hhash.
  - intros p h st st1 Hhash. unfold HashedPath. rewrite Hh.
    unfold mbind, M_bind at 1. by rewrite Hhash.
Qed.

Lemma errNotRegularFile_from_hash_witness :
  hash site (stubHasher "deadbeef")
    (New "" "public" (Some (site_options (Some (stubHasher "deadbeef")) "" None)))
    "/css" fresh
  = (("", false, Some errNotRegularFile), log fresh [EvOpen "public" "/css"])
  ∧ ServeHTTP site
      (New "" "public" (Some (site_options (Some (stubHasher "deadbeef")) "" None)))
      {| URL_Path := "/css"; URL_RawQuery := "" |} fresh
    = ServeHTTP_open site
        (New "" "public" (Some (site_options (Some (stubHasher "deadbeef")) "" None)))
        "/css" "/css" (log fresh [EvOpen "public" "/css"])
  ∧ HashedPath site
      (New "" "public" (Some (site_options (Some (stubHasher "deadbeef")) "" None)))
      "/css" fresh
    = (("", Some errNotRegularFile), log fresh [EvOpen "public" "/css"]).
Proof.
  pose proof (errNotRegularFile_from_hash site
    (New "" "public" (Some (site_options (Some (stubHasher "deadbeef")) "" None)))
    (stubHasher "deadbeef") eq_refl) as [Hserve Hpath].
  split_and!.
  - reflexivity.
  - exact (Hserve {| URL_Path := "/css"; URL_RawQuery := "" |} "" false fresh
             (log fresh [EvOpen "public" "/css"])
             (or_introl eq_refl) eq_refl eq_refl eq_refl).
  - exact (Hpath "/css" "" fresh (log fresh [EvOpen "public" "/css"]) eq_refl).
Defined.

(** C4 as stated fails at [HashedPath]: asked for a directory, it returns
    the not-a-regular-file error of the digest lookup to its caller. *)
Lemma HashedPath_returns_errNotRegularFile :
  fst (hash site (stubHasher "deadbeef")
         (New "/static" "public"
            (Some (site_options (Some (stubHasher "deadbeef")) "" None)))
         "/css" fresh)
  = ("", false, Some errNotRegularFile)
  ∧ fst (HashedPath site
           (New "/static" "public"
              (Some (site_options (Some (stubHasher "deadbeef")) "" None)))
           "/css" fresh)
    = ("", Some errNotRegularFile).
Proof. split; reflexivity. Qed.

(** ** The root prefix *)

(** C5 fails on the code for a request path that [path.Clean] shortens:
    with the root prefix [/static], the request [/other/] cleans to
    [/other], which does not begin with the prefix and is left as it is by
    [strings.TrimPrefix]; its length 6 is compared with the length 7 of the
    uncleaned [r.URL.Path], so the not-found branch is not taken and the file
    [other] of the directory is served. *)
Theorem ServeHTTP_root_prefix_unclean_path :
  HasPrefix (GoPath.Clean (slashed "/other/")) "/static" = false
  ∧ stripped (New "/static" "public" None) (slashed "/other/") = "/other"
  ∧ root_mismatch (New "/static" "public" None) (slashed "/other/") = false
  ∧ fst (ServeHTTP site (New "/static" "public" None)
           {| URL_Path := "/other/"; URL_RawQuery := "" |} fresh)
    = ServeContent "other" 3 (regular_file "public/other" "other" 3)
  ∧ fst (ServeHTTP site (New "/static" "public" None)
           {| URL_Path := "/other"; URL_RawQuery := "" |} fresh)
    = Handled DefaultNotFoundHandler.
Proof. split_and!; reflexivity. Qed.

(** ** Recovery of a digest from file names *)

(** When no selected match carries a digest that [IsHash] accepts, the loop
    returns early at the first selected match, and runs to its end with [h]
    untouched when no match is selected. *)
Lemma hashFromFilename_loop_none_valid hs p ext matches h :
  (∀ m, m ∈ matches → selected hs p m = true →
        IsHash hs (candidate ext m) = false) →
  hashFromFilename_loop hs p ext matches h
  = if existsb (selected hs p) matches then None else Some h.
Proof.
  induction matches as [|m matches IH]; intros Hall; simpl; [done|].
  unfold selected in *. destruct (HasSuffix (canonicalPath hs m) p) eqn:E; simpl.
  - rewrite (Hall m); [done|by left|done].
  - apply IH. intros m' Hin. apply Hall. by right.
Qed.

(** C3, amended. On a cache miss, when no match whose canonical form ends
    with [p] carries a digest segment that [IsHash] accepts:
    if some match's canonical form ends with [p], [hashFromFilename] returns
    the not-found error with an empty digest and [cont] true, and stores
    nothing; if no match's canonical form ends with [p] (so also when there
    is no match at all), it returns the empty digest with a nil error and
    [cont] false, and stores the empty digest for [p]. *)
Theorem hashFromFilename_no_valid_match (w : World) (hs : Hasher) (s : Server)
    (p : string) (matches : list string) (st st1 : State) :
  hashes st !! p = None →
  hashFromFilename_matches w s p st = ((matches, None), st1) →
  (∀ m, m ∈ matches → selected hs p m = true →
        IsHash hs (candidate (GoPath.Ext p) m) = false) →
  hashFromFilename w hs s p st
  = if existsb (selected hs p) matches
    then (("", true, Some errNotFound), st1)
    else (("", false, None), stored p "" st1).
Proof.
  intros Hc Hm Hall. unfold hashFromFilename.
  unfold mbind, M_bind at 1. unfold cache_load. rewrite Hc.
  unfold mbind, M_bind at 1. rewrite Hm.
  rewrite (hashFromFilename_loop_none_valid _ _ _ _ _ Hall).
  by destruct (existsb _ _).
Qed.

Lemma hashFromFilename_no_valid_match_witness :
  hashFromFilename site (stubHasher "deadbeef")
    (New "" "public"
       (Some (site_options (Some (stubHasher "deadbeef")) "" (Some ["public/app.css"]))))
    "/app.css" fresh
  = (("", true, Some errNotFound), fresh)
  ∧ hashFromFilename site (stubHasher "deadbeef")
      (New "" "public"
         (Some (site_options (Some (stubHasher "deadbeef")) "" (Some ["public/app.min.css"]))))
      "/app.css" fresh
    = (("", false, None), stored "/app.css" "" fresh).
Proof.
  split.
  - apply (hashFromFilename_no_valid_match site (stubHasher "deadbeef")
             (New "" "public"
                (Some (site_options (Some (stubHasher "deadbeef")) ""
                         (Some ["public/app.css"]))))
             "/app.css" ["public/app.css"] fresh fresh);
      [reflexivity|reflexivity|].
    intros m ->%list_elem_of_singleton _. reflexivity.
  - apply (hashFromFilename_no_valid_match site (stubHasher "deadbeef")
             (New "" "public"
                (Some (site_options (Some (stubHasher "deadbeef")) ""
                         (Some ["public/app.min.css"]))))
             "/app.css" ["public/app.min.css"] fresh fresh);
      [reflexivity|reflexivity|].
    intros m ->%list_elem_of_singleton H. vm_compute in H. discriminate H.
Defined.

(** C3 as stated fails: with the canonical file itself among the
    enumerated names, the only match has no digest segment and the
    not-found error comes back with [cont] true; with no match at all,
    enumerated or globbed, no error comes back. *)
Lemma hashFromFilename_not_found_cases :
  (filename_matches
     (New "" "public"
        (Some (site_options (Some (stubHasher "deadbeef")) "" (Some ["public/app.css"]))))
     "/app" ["public/app.css"] = ["public/app.css"]
   ∧ selected (stubHasher "deadbeef") "/app.css" "public/app.css" = true
   ∧ candidate ".css" "public/app.css" = ""
   ∧ IsHash (stubHasher "deadbeef") "" = false
   ∧ fst (hashFromFilename site (stubHasher "deadbeef")
            (New "" "public"
               (Some (site_options (Some (stubHasher "deadbeef")) ""
                        (Some ["public/app.css"]))))
            "/app.css" fresh)
     = ("", true, Some errNotFound))
  ∧ fst (hashFromFilename site (stubHasher "deadbeef")
           (New "" "public"
              (Some (site_options (Some (stubHasher "deadbeef")) "" (Some []))))
           "/app.css" fresh)
    = ("", false, None)
  ∧ (fs_glob site "public/css/gone.*.css" = ([], None)
     ∧ fst (hashFromFilename site (stubHasher "deadbeef")
              (New "" "public"
                 (Some (site_options (Some (stubHasher "deadbeef")) "" None)))
              "/css/gone.css" fresh)
       = ("", false, None)).
Proof. split_and!; reflexivity. Qed.

(** ** Further properties *)

(** X1. Root-prefix stripping on clean request paths: for a non-empty root
    prefix and a request path that [path.Clean] leaves as it is and that
    does not begin with the prefix, [ServeHTTP] answers with the not-found
    handler and touches neither the cache nor the filesystem. *)
Theorem ServeHTTP_root_mismatch_clean_path (w : World) (s : Server)
    (r : Request) (st : State) :
  root s ≠ "" →
  GoPath.Clean (slashed (URL_Path r)) = slashed (URL_Path r) →
  HasPrefix (slashed (URL_Path r)) (root s) = false →
  ServeHTTP w s r st
  = (Handled (or_default (NotFoundHandler (options s)) DefaultNotFoundHandler), st).
Proof.
  intros Hroot Hclean Hpre. unfold ServeHTTP.
  assert (root_mismatch s (slashed (URL_Path r)) = true) as ->; [|done].
  unfold root_mismatch, stripped. rewrite Hclean.
  destruct (decide (root s = "")) as [|_]; [done|].
  unfold TrimPrefix. rewrite Hpre, bool_decide_eq_false_2 by done.
  simpl. apply Z.leb_le. lia.
Qed.

Lemma ServeHTTP_root_mismatch_clean_path_witness :
  ServeHTTP site (New "/static" "public" None)
    {| URL_Path := "/other"; URL_RawQuery := "" |} fresh
  = (Handled DefaultNotFoundHandler, fresh).
Proof.
  apply (ServeHTTP_root_mismatch_clean_path site (New "/static" "public" None)
           {| URL_Path := "/other"; URL_RawQuery := "" |} fresh);
    [discriminate|reflexivity|reflexivity].
Defined.

(** X2. Extension preservation: a digest [h] that is not empty goes before
    the last extension of the file name ([d/a.e] becomes [d/a.h.e], whatever
    dots [a] holds), and behind the name when the name has no dot or is a
    dotfile; the directory part [d] is never touched. *)
Theorem hashedPath_extension_preserved (d a e h : string) :
  h ≠ "" → is_dir_part d = true →
  a ≠ "" → Contains a "/" = false →
  Contains e "/" = false → Contains e "." = false →
  hashedPath (d +:+ a +:+ "." +:+ e) h = d +:+ a +:+ "." +:+ h +:+ "." +:+ e
  ∧ hashedPath (d +:+ e) h = d +:+ e +:+ "." +:+ h
  ∧ hashedPath (d +:+ "." +:+ e) h = d +:+ "." +:+ e +:+ "." +:+ h.
Proof.
  intros Hh Hd Ha Has Hes Hed. unfold hashedPath.
  destruct (decide (h = "")); [done|]. split_and!.
  - change ("." +:+ e) with (String "." e).
    rewrite path_Split_app; [|done|].
    2: { rewrite Contains_app, Has. simpl. by rewrite Hes. }
    rewrite (LastIndexByte_app _ _ _ Hed).
    replace (0 <? len a) with true
      by (destruct a; [done|unfold len; simpl String.length; zbool]).
    by rewrite len_to_nat, take_app, drop_app.
  - rewrite path_Split_app by done. by rewrite (LastIndexByte_free _ _ Hed).
  - change ("." +:+ e) with ("" +:+ String "." e).
    rewrite path_Split_app; [|done|by simpl; rewrite Hes].
    by rewrite (LastIndexByte_app _ _ _ Hed).
Qed.

Lemma hashedPath_extension_preserved_witness :
  hashedPath "/js/app.min.js" "deadbeef" = "/js/app.min.deadbeef.js"
  ∧ hashedPath "/js/js" "deadbeef" = "/js/js.deadbeef"
  ∧ hashedPath "/js/.js" "deadbeef" = "/js/.js.deadbeef".
Proof.
  apply (hashedPath_extension_preserved "/js/" "app.min" "js" "deadbeef");
    (discriminate || reflexivity).
Defined.

(** The loop keeps every part that [IsHash] rejects. *)
Lemma canonicalPath_loop_all_kept hs skip i parts f :
  0 < i → Forall (λ part, IsHash hs part = false) parts →
  canonicalPath_loop hs skip i parts f = f +:+ dotted "." parts.
Proof.
  intros Hi Hall. revert i f Hi.
  induction Hall as [|part rest Hp _ IH]; intros i f Hi; simpl.
  - by rewrite append_empty_r.
  - rewrite Hp, andb_false_r. replace (i =? 0) with false by zbool. simpl.
    rewrite IH by lia. by rewrite !append_assoc.
Qed.

(** The byte [x] is in no part of a string that does not hold it. *)
Lemma Split_Contains s c x :
  Contains s x = false →
  Forall (λ part, Contains part x = false) (GoStrings.Split s c).
Proof.
  induction s as [|a s IH]; simpl; [by repeat constructor|].
  destruct (decide (a = x)) as [|Hax]; [done|]. intros Hs.
  specialize (IH Hs). destruct (decide (a = c)).
  - by constructor.
  - destruct (Split_nonempty s c) as (q & qs & E). rewrite E in *.
    apply Forall_cons in IH as [Hq Hqs]. constructor; [|done].
    simpl. by destruct (decide (a = x)).
Qed.

(** The loop builds a name without [x] from parts without [x]. *)
Lemma canonicalPath_loop_Contains hs skip i parts f x :
  x ≠ "."%char → Contains f x = false →
  Forall (λ part, Contains part x = false) parts →
  Contains (canonicalPath_loop hs skip i parts f) x = false.
Proof.
  intros Hx Hf Hall. revert i f Hf.
  induction Hall as [|part rest Hp _ IH]; intros i f Hf; simpl; [done|].
  destruct ((i =? skip) && IsHash hs part); [by apply IH|].
  apply IH. rewrite Contains_app, Hp, orb_false_r.
  destruct (negb (i =? 0)); [|done].
  rewrite Contains_app, Hf. simpl. by destruct (decide ("."%char = x)).
Qed.

(** X3. [canonicalPath] leaves a path as it is when [IsHash] rejects every
    dot-separated part of its last element: a path that carries no digest
    is its own canonical form. *)
Theorem canonicalPath_without_digest (hs : Hasher) (p : string) :
  Forall (λ part, IsHash hs part = false)
    (GoStrings.Split (snd (GoPath.Split p)) ".") →
  canonicalPath hs p = p.
Proof.
  unfold canonicalPath.
  destruct (path_Split_spec p) as (d & f & -> & -> & Hd & Hf). simpl.
  destruct (Split_nonempty f ".") as (q & qs & E). rewrite E.
  intros [Hq Hqs]%Forall_cons. f_equal.
  cbn [canonicalPath_loop]. rewrite Hq, andb_false_r. simpl.
  rewrite canonicalPath_loop_all_kept by (lia || done).
  symmetry. by apply Split_rebuild.
Qed.

Lemma canonicalPath_without_digest_witness :
  canonicalPath (stubHasher "deadbeef") "/v1.deadbeef/js/app.min.js"
  = "/v1.deadbeef/js/app.min.js".
Proof.
  apply (canonicalPath_without_digest (stubHasher "deadbeef")
           "/v1.deadbeef/js/app.min.js").
  repeat constructor.
Defined.

(** X4. [canonicalPath] rewrites the last element only: the result has the
    directory part of the path it was given, followed by a name without a
    slash. *)
Theorem canonicalPath_keeps_directory (hs : Hasher) (p : string) :
  fst (GoPath.Split (canonicalPath hs p)) = fst (GoPath.Split p).
Proof.
  unfold canonicalPath.
  destruct (path_Split_spec p) as (d & f & E & -> & Hd & Hf).
  rewrite E. cbn [fst].
  rewrite path_Split_app; [done|done|].
  apply canonicalPath_loop_Contains; [done|done|].
  by apply Split_Contains.
Qed.

(** ** The cache across calls *)

(** Opening files leaves the cache alone. *)
Lemma open_hashes w s p st : hashes (open w s p st).2 = hashes st.
Proof.
  unfold open. destruct (decide _); run_monad; [done|].
  by destruct (os_IsNotExist _).
Qed.


Lemma hashFromFilename_matches_hashes w s p st :
  hashes (hashFromFilename_matches w s p st).2 = hashes st.
Proof.
  unfold hashFromFilename_matches. destruct (Filenames _); [done|].
  destruct (decide (AltDir _ = "")); run_monad.
  - by destruct (fs_glob w _) as [m [e1|]].
  - destruct (fs_glob w _) as [m [e1|]]; [done|]. run_monad.
    by destruct (fs_glob w _) as [m' [e2|]].
Qed.

(** [hash] stores at most the digest of [p], and only where there was no
    entry. *)
Lemma hash_run w hs s p st r st1 :
  hash w hs s p st = (r, st1) →
  hashes st1 = hashes st
  ∨ ∃ h, hashes st !! p = None ∧ r = (h, false, None)
         ∧ hashes st1 = <[p := h]> (hashes st).
Proof.
  unfold hash. unfold mbind, M_bind at 1. unfold cache_load.
  destruct (hashes st !! p) as [h0|] eqn:E; [intros [= <- <-]; by left|].
  unfold mbind, M_bind at 1.
  pose proof (open_hashes w s p st) as Ho.
  destruct (open w s p st) as [[f|e] st']; simpl in Ho;
    [|intros [= <- <-]; by left].
  destruct (Stat f) as [d|e]; [|intros [= <- <-]; by left].
  destruct (IsRegular (Mode d)); simpl; [|intros [= <- <-]; by left].
  run_monad. destruct (Hash hs f) as [h [e|]]; intros [= <- <-]; [by left|].
  right. exists h. simpl. by rewrite Ho.
Qed.

Lemma hash_hashes w hs s p st :
  hashes (hash w hs s p st).2 = hashes st
  ∨ ∃ h, hashes st !! p = None
         ∧ (hash w hs s p st).1 = (h, false, None)
         ∧ hashes (hash w hs s p st).2 = <[p := h]> (hashes st).
Proof.
  destruct (hash w hs s p st) as [r st1] eqn:E. by apply hash_run in E.
Qed.

Lemma hashFromFilename_run w hs s p st r st1 :
  hashFromFilename w hs s p st = (r, st1) →
  hashes st1 = hashes st
  ∨ ∃ h, hashes st !! p = None ∧ r = (h, false, None)
         ∧ hashes st1 = <[p := h]> (hashes st).
Proof.
  unfold hashFromFilename. unfold mbind, M_bind at 1. unfold cache_load.
  destruct (hashes st !! p) as [h0|] eqn:E; [intros [= <- <-]; by left|].
  unfold mbind, M_bind at 1.
  pose proof (hashFromFilename_matches_hashes w s p st) as Hm.
  destruct (hashFromFilename_matches w s p st) as [[matches [e|]] st'];
    simpl in Hm; [intros [= <- <-]; by left|].
  destruct (hashFromFilename_loop _ _ _ _ _) as [h|];
    run_monad; intros [= <- <-]; [|by left].
  right. exists h. simpl. by rewrite Hm.
Qed.

Lemma hashFromFilename_hashes w hs s p st :
  hashes (hashFromFilename w hs s p st).2 = hashes st
  ∨ ∃ h, hashes st !! p = None
         ∧ (hashFromFilename w hs s p st).1 = (h, false, None)
         ∧ hashes (hashFromFilename w hs s p st).2 = <[p := h]> (hashes st).
Proof.
  destruct (hashFromFilename w hs s p st) as [r st1] eqn:E.
  by apply hashFromFilename_run in E.
Qed.







(** X6. Errors are never cached: a call of [hash] or of [hashFromFilename]
    that returns an error leaves the cache exactly as it was. *)
Theorem lookup_error_not_cached (w : World) (hs : Hasher) (s : Server)
    (p : string) (st : State) :
  ((hash w hs s p st).1.2 ≠ None →
   hashes (hash w hs s p st).2 = hashes st)
  ∧ ((hashFromFilename w hs s p st).1.2 ≠ None →
     hashes (hashFromFilename w hs s p st).2 = hashes st).
Proof.
  split; intros He.
  - destruct (hash_hashes w hs s p st) as [?|(h & _ & E & _)]; [done|].
    by rewrite E in He.
  - destruct (hashFromFilename_hashes w hs s p st) as [?|(h & _ & E & _)]; [done|].
    by rewrite E in He.
Qed.

Lemma lookup_error_not_cached_witness :
  hashes (hash site (stubHasher "deadbeef") (New "" "public" None)
            "/missing.css" fresh).2 = ∅
  ∧ hashes (hashFromFilename site (stubHasher "deadbeef")
              (New "" "public"
                 (Some (site_options None "" (Some ["public/app.css"]))))
              "/app.css" fresh).2 = ∅.
Proof.
  split.
  - apply (lookup_error_not_cached site (stubHasher "deadbeef")
             (New "" "public" None) "/missing.css" fresh). discriminate.
  - apply (lookup_error_not_cached site (stubHasher "deadbeef")
             (New "" "public"
                (Some (site_options None "" (Some ["public/app.css"]))))
             "/app.css" fresh). discriminate.
Defined.

(** ** Errors of the digest lookup *)

(** X7. [hash] is continuable only when the file could not be opened or
    its [Stat] failed: then the cache had no entry for [p], the digest is
    empty and the error is the one of [open] or [Stat].  A path that is not a
    regular file and a failure of the Hasher are never continuable. *)
Theorem hash_continuable (w : World) (hs : Hasher) (s : Server) (p h : string)
    (err : option error) (st st1 : State) :
  hash w hs s p st = ((h, true, err), st1) →
  hashes st !! p = None ∧ h = "" ∧ st1 = (open w s p st).2
  ∧ ∃ e, err = Some e
         ∧ ((open w s p st).1 = inr e
            ∨ ∃ f, (open w s p st).1 = inl f ∧ Stat f = inr e).
Proof.
  unfold hash. unfold mbind, M_bind at 1. unfold cache_load.
  destruct (hashes st !! p) as [h0|]; [done|].
  unfold mbind, M_bind at 1.
  destruct (open w s p st) as [[f|e] st'] eqn:Eo; simpl.
  - destruct (Stat f) as [d|e] eqn:Es.
    + destruct (IsRegular (Mode d)); simpl; [|done]. run_monad.
      by destruct (Hash hs f) as [h' [e|]].
    + intros [= <- <- <-]. split_and!; [done..|].
      exists e. split; [done|]. right. by exists f.
  - intros [= <- <- <-]. split_and!; [done..|].
    exists e. split; [done|]. by left.
Qed.

Lemma hash_continuable_witness :
  hash site (stubHasher "deadbeef") (New "" "public" None) "/missing.css" fresh
  = (("", true, Some ErrNotExist), log fresh [EvOpen "public" "/missing.css"])
  ∧ hashes fresh !! "/missing.css" = None
  ∧ ∃ e, Some ErrNotExist = Some e
         ∧ ((open site (New "" "public" None) "/missing.css" fresh).1 = inr e
            ∨ ∃ f, (open site (New "" "public" None) "/missing.css" fresh).1 = inl f
                   ∧ Stat f = inr e).
Proof.
  assert (hash site (stubHasher "deadbeef") (New "" "public" None)
            "/missing.css" fresh
          = (("", true, Some ErrNotExist),
             log fresh [EvOpen "public" "/missing.css"])) as H by reflexivity.
  split; [exact H|].
  destruct (hash_continuable site (stubHasher "deadbeef") (New "" "public" None)
              "/missing.css" "" (Some ErrNotExist) fresh _ H)
    as (Hmiss & _ & _ & Hex).
  split; [exact Hmiss|exact Hex].
Defined.

(** X8. In [ServeHTTP], a continuable error of the digest lookup is not
    escalated: the request goes on to the ordinary code path, opening the
    cleaned request path.  An error that is not continuable, the
    not-a-regular-file signal apart, ends the request in [httpError] with
    that error. *)
Theorem ServeHTTP_lookup_errors (w : World) (s : Server) (r : Request)
    (hs : Hasher) (h : string) (cont : bool) (e : error) (st st1 : State) :
  opt_Hasher (options s) = Some hs →
  NoHashQueryStrings (options s) = false ∨ URL_RawQuery r = "" →
  root_mismatch s (slashed (URL_Path r)) = false →
  index_shortcut s (slashed (URL_Path r)) = false →
  hash w hs s (canonicalPath hs (stripped s (slashed (URL_Path r)))) st
  = ((h, cont, Some e), st1) →
  ServeHTTP w s r st
  = if cont || bool_decide (e = errNotRegularFile)
    then ServeHTTP_open w s (stripped s (slashed (URL_Path r)))
           (slashed (URL_Path r)) st1
    else (httpError s e, st1).
Proof.
  intros Hh Hq Hr Hi Hhash.
  rewrite (ServeHTTP_hash_block w s r hs st Hr Hi (hashing_configured _ _ _ Hh Hq)).
  cbv zeta. rewrite Hhash. by destruct e, cont.
Qed.

Lemma ServeHTTP_lookup_errors_witness :
  ServeHTTP site
    (New "" "public" (Some (site_options (Some (stubHasher "deadbeef")) "" None)))
    {| URL_Path := "/missing.css"; URL_RawQuery := "" |} fresh
  = ServeHTTP_open site
      (New "" "public" (Some (site_options (Some (stubHasher "deadbeef")) "" None)))
      "/missing.css" "/missing.css" (log fresh [EvOpen "public" "/missing.css"]).
Proof.
  exact (ServeHTTP_lookup_errors site
    (New "" "public" (Some (site_options (Some (stubHasher "deadbeef")) "" None)))
    {| URL_Path := "/missing.css"; URL_RawQuery := "" |}
    (stubHasher "deadbeef") "" true ErrNotExist fresh
    (log fresh [EvOpen "public" "/missing.css"])
    eq_refl (or_introl eq_refl) eq_refl eq_refl eq_refl).
Defined.

(** ** The two lookups and the cache they share *)

Lemma hashFromFilename_hit w hs s p st h :
  hashes st !! p = Some h →
  hashFromFilename w hs s p st = ((h, false, None), st).
Proof. intros H. unfold hashFromFilename. run_monad. by rewrite H. Qed.

Lemma hashFromFilename_ok_cached w hs s p st h cont st1 :
  hashFromFilename w hs s p st = ((h, cont, None), st1) →
  hashes st1 !! p = Some h.
Proof.
  intros H. pose proof (hashFromFilename_run _ _ _ _ _ _ _ H)
    as [Heq|(h' & Hn & [= <- _] & ->)]; [|apply lookup_insert_eq].
  revert H. unfold hashFromFilename. unfold mbind, M_bind at 1.
  unfold cache_load. destruct (hashes st !! p) as [h0|] eqn:E.
  - intros [= <- _ <-]. done.
  - unfold mbind, M_bind at 1.
    destruct (hashFromFilename_matches w s p st) as [[matches [e|]] st'];
      [done|].
    destruct (hashFromFilename_loop _ _ _ _ _) as [h'|]; [|done].
    run_monad. intros [= <- _ <-]. simpl. apply lookup_insert_eq.
Qed.

(** X9. For a path whose digest is in the cache, [HashedPath] is a pure
    function of the cache: it returns [path.Join(s.root, hashedPath(p, h))]
    with a nil error and opens, globs and hashes nothing. *)
Theorem HashedPath_cached (w : World) (s : Server) (hs : Hasher)
    (p h : string) (st : State) :
  opt_Hasher (options s) = Some hs →
  hashes st !! p = Some h →
  HashedPath w s p st = ((GoPath.Join (root s) (hashedPath p h), None), st).
Proof.
  intros Hh Hc. unfold HashedPath. rewrite Hh.
  unfold mbind, M_bind at 1. by rewrite (hash_hit _ _ _ _ _ _ Hc).
Qed.

Lemma HashedPath_cached_witness :
  HashedPath site
    (New "/static" "public"
       (Some (site_options (Some (stubHasher "deadbeef")) "" None)))
    "/css/app.css" (stored "/css/app.css" "0badcafe" fresh)
  = (("/static/css/app.0badcafe.css", None),
     stored "/css/app.css" "0badcafe" fresh).
Proof.
  apply (HashedPath_cached site
           (New "/static" "public"
              (Some (site_options (Some (stubHasher "deadbeef")) "" None)))
           (stubHasher "deadbeef") "/css/app.css" "0badcafe"
           (stored "/css/app.css" "0badcafe" fresh));
    reflexivity.
Defined.

(** X10. [hash] and [hashFromFilename] share one cache: a digest that one
    of them returned with a nil error (the empty digest of a failed recovery
    included) is what the other returns for the same path afterwards,
    without opening, globbing or hashing anything. *)
Theorem lookups_share_cache (w1 w2 : World) (hs : Hasher) (s : Server)
    (p h : string) (cont : bool) (st st1 : State) :
  (hashFromFilename w1 hs s p st = ((h, cont, None), st1) →
   hash w2 hs s p st1 = ((h, false, None), st1))
  ∧ (hash w1 hs s p st = ((h, cont, None), st1) →
     hashFromFilename w2 hs s p st1 = ((h, false, None), st1)).
Proof.
  split; intros H.
  - apply hash_hit. by eapply hashFromFilename_ok_cached.
  - apply hashFromFilename_hit. by eapply hash_ok_cached.
Qed.

Lemma lookups_share_cache_witness :
  hashFromFilename site (stubHasher "deadbeef") (New "" "public" None)
    "/css/gone.css" fresh
  = (("", false, None),
     stored "/css/gone.css" "" (log fresh [EvGlob "public/css/gone.*.css"]))
  ∧ hash site (stubHasher "deadbeef") (New "" "public" None) "/css/gone.css"
      (stored "/css/gone.css" "" (log fresh [EvGlob "public/css/gone.*.css"]))
    = (("", false, None),
       stored "/css/gone.css" "" (log fresh [EvGlob "public/css/gone.*.css"])).
Proof.
  assert (hashFromFilename site (stubHasher "deadbeef") (New "" "public" None)
            "/css/gone.css" fresh
          = (("", false, None),
             stored "/css/gone.css" ""
               (log fresh [EvGlob "public/css/gone.*.css"]))) as H by reflexivity.
  split; [exact H|].
  exact (proj1 (lookups_share_cache site site (stubHasher "deadbeef")
                  (New "" "public" None) "/css/gone.css" "" false fresh _) H).
Defined.

(** ** Recovery that succeeds *)

(** When every selected match carries a digest that [IsHash] accepts, the
    loop runs to its end and the last selected match decides. *)
Lemma hashFromFilename_loop_all_valid hs p ext matches h :
  (∀ m, m ∈ matches → selected hs p m = true →
        IsHash hs (candidate ext m) = true) →
  hashFromFilename_loop hs p ext matches h
  = Some (last_candidate hs p ext matches h).
Proof.
  unfold last_candidate. revert h.
  induction matches as [|m matches IH]; intros h Hall; simpl; [done|].
  unfold selected in *. destruct (HasSuffix (canonicalPath hs m) p) eqn:E.
  - rewrite (Hall m); [|by left|done]. simpl. apply IH.
    intros m' Hin. apply Hall. by right.
  - apply IH. intros m' Hin. apply Hall. by right.
Qed.

(** X11. On a cache miss, when every match whose canonical form ends with
    [p] carries a digest segment that [IsHash] accepts, [hashFromFilename]
    returns the digest segment of the last such match (the empty digest
    when there is none) with a nil error and [cont] false, and stores it in
    the cache under [p]: among several hashed copies of a file the last
    match wins. *)
Theorem hashFromFilename_last_match_wins (w : World) (hs : Hasher) (s : Server)
    (p : string) (matches : list string) (st st1 : State) :
  hashes st !! p = None →
  hashFromFilename_matches w s p st = ((matches, None), st1) →
  (∀ m, m ∈ matches → selected hs p m = true →
        IsHash hs (candidate (GoPath.Ext p) m) = true) →
  hashFromFilename w hs s p st
  = ((last_candidate hs p (GoPath.Ext p) matches "", false, None),
     stored p (last_candidate hs p (GoPath.Ext p) matches "") st1).
Proof.
  intros Hc Hm Hall. unfold hashFromFilename.
  unfold mbind, M_bind at 1. unfold cache_load. rewrite Hc.
  unfold mbind, M_bind at 1. rewrite Hm.
  by rewrite (hashFromFilename_loop_all_valid _ _ _ _ _ Hall).
Qed.

Lemma hashFromFilename_last_match_wins_witness :
  hashFromFilename site (lengthHasher 8 "cccccccc")
    (New "" "public"
       (Some (site_options (Some (lengthHasher 8 "cccccccc")) ""
                (Some ["public/app.aaaaaaaa.css"; "public/app.min.css";
                       "public/app.bbbbbbbb.css"]))))
    "/app.css" fresh
  = (("bbbbbbbb", false, None), stored "/app.css" "bbbbbbbb" fresh).
Proof.
  apply (hashFromFilename_last_match_wins site (lengthHasher 8 "cccccccc")
           (New "" "public"
              (Some (site_options (Some (lengthHasher 8 "cccccccc")) ""
                       (Some ["public/app.aaaaaaaa.css"; "public/app.min.css";
                              "public/app.bbbbbbbb.css"]))))
           "/app.css"
           ["public/app.aaaaaaaa.css"; "public/app.min.css";
            "public/app.bbbbbbbb.css"] fresh fresh);
    [reflexivity|reflexivity|].
  intros m Hin Hsel.
  apply elem_of_cons in Hin as [->|Hin]; [reflexivity|].
  apply elem_of_cons in Hin as [->|Hin]; [vm_compute in Hsel; discriminate Hsel|].
  apply list_elem_of_singleton in Hin as ->. reflexivity.
Defined.

(** X12. [HashedPath] falls back on the file names: when the digest lookup
    fails in a continuable way (the file cannot be opened), the result is
    decided by [hashFromFilename] run on the state the lookup left: its
    digest makes the hashed path, and its error, if any, is returned with an
    empty path. *)
Theorem HashedPath_recovers_from_filenames (w : World) (s : Server)
    (hs : Hasher) (p h0 h : string) (e : error) (cont : bool)
    (err : option error) (st st1 st2 : State) :
  opt_Hasher (options s) = Some hs →
  hash w hs s p st = ((h0, true, Some e), st1) →
  hashFromFilename w hs s p st1 = ((h, cont, err), st2) →
  HashedPath w s p st
  = (match err with
     | None => (GoPath.Join (root s) (hashedPath p h), None)
     | Some e' => ("", Some e')
     end, st2).
Proof.
  intros Hh Hhash Hrec. unfold HashedPath. rewrite Hh.
  unfold mbind, M_bind at 1. rewrite Hhash.
  unfold mbind, M_bind at 1. unfold mbind, M_bind at 1. rewrite Hrec.
  by destruct err.
Qed.

Lemma HashedPath_recovers_from_filenames_witness :
  HashedPath site
    (New "/static" "public"
       (Some (site_options (Some (stubHasher "deadbeef")) ""
                (Some ["public/js/app.deadbeef.js"]))))
    "/js/app.js" fresh
  = (("/static/js/app.deadbeef.js", None),
     stored "/js/app.js" "deadbeef" (log fresh [EvOpen "public" "/js/app.js"])).
Proof.
  exact (HashedPath_recovers_from_filenames site
    (New "/static" "public"
       (Some (site_options (Some (stubHasher "deadbeef")) ""
                (Some ["public/js/app.deadbeef.js"]))))
    (stubHasher "deadbeef") "/js/app.js" "" "deadbeef" ErrNotExist false None
    fresh (log fresh [EvOpen "public" "/js/app.js"])
    (stored "/js/app.js" "deadbeef" (log fresh [EvOpen "public" "/js/app.js"]))
    eq_refl eq_refl eq_refl).
Defined.
